(** * homebridge-trane-home: the status throttle, the status document model
    and the mobile client.

    A shallow embedding of [throttle.ts], [houseStatus.ts], [mobileClient.ts]
    and of the single-file client that owns its own throttle, together with
    the properties of the specification that concern them. *)

From Stdlib Require Import PrimFloat.
From stdpp Require Import base option list strings.

Set Default Proof Using "Type".

(** ** Promise outcomes and JavaScript errors *)

(** A settled promise is either fulfilled with a value or rejected with a
    reason. *)
Inductive outcome (T E : Type) : Type :=
| Fulfilled (v : T)
| Rejected (e : E).
Arguments Fulfilled {T E} v.
Arguments Rejected {T E} e.

(** An error object, reduced to its [name] and [message] properties. *)
Record js_error : Type := JsError {
  err_name : string;
  err_message : string;
}.

(** The error V8 raises for [undefined.prop]. *)
Definition TypeError_undefined (prop : string) : js_error :=
  JsError "TypeError"
    ("Cannot read properties of undefined (reading '" +:+ prop +:+ "')").

(** ** throttle.ts *)

Module Throttle.
Section Throttle.

(** [fn : () => Promise<T>] is the wrapped producer; it is run by the
    environment, which later settles each call with an [outcome T E]. *)
Context {T E : Type}.
Variable wait_ms : nat.

(** The closure of one [throttle(fn, wait_ms)] call, with the part of the
    runtime it touches.

    - [timeoutId], [cachedResult]: the two captured variables. A promise is
      named by the index of the [fn()] call it comes from: [fn().finally(..)]
      settles exactly as [fn()] does, since the callback returns normally.
    - [clock]: the time in milliseconds.
    - [timers]: the handles armed with [setTimeout] that have neither fired
      nor been cleared, with the time they are due, in arming order. All are
      armed with the same delay, so this is also the order they are due in.
    - [next_timer]: the next fresh timer handle.
    - [fetches]: one entry per call of [fn] so far; [None] while the call is
      in flight, [Some o] once it has settled with [o]. *)
Record world : Type := World {
  timeoutId : option nat;
  cachedResult : option nat;
  clock : nat;
  timers : list (nat * nat);
  next_timer : nat;
  fetches : list (option (outcome T E));
}.

Definition init : world := World None None 0 [] 0 [].

Definition set_timeoutId (v : option nat) (w : world) : world :=
  World v (cachedResult w) (clock w) (timers w) (next_timer w) (fetches w).
Definition set_cachedResult (v : option nat) (w : world) : world :=
  World (timeoutId w) v (clock w) (timers w) (next_timer w) (fetches w).
Definition set_clock (v : nat) (w : world) : world :=
  World (timeoutId w) (cachedResult w) v (timers w) (next_timer w) (fetches w).
Definition set_timers (v : list (nat * nat)) (w : world) : world :=
  World (timeoutId w) (cachedResult w) (clock w) v (next_timer w) (fetches w).
Definition set_fetches (v : list (option (outcome T E))) (w : world) : world :=
  World (timeoutId w) (cachedResult w) (clock w) (timers w) (next_timer w) v.

(** Number of times [fn] has been invoked. *)
Definition fn_calls (w : world) : nat := length (fetches w).

(** What a caller holding promise [p] has received: [None] while pending. *)
Definition result_of (w : world) (p : nat) : option (outcome T E) :=
  mjoin (fetches w !! p).

(** Call [p] of [fn] has been made and has not settled. *)
Definition in_flight (w : world) (p : nat) : bool :=
  match fetches w !! p with
  | Some None => true
  | _ => false
  end.

(** [clearTimeout(t)]: a handle that is not pending is ignored. *)
Definition clearTimeout (t : nat) (w : world) : world :=
  set_timers (filter (λ x, x.1 ≠ t) (timers w)) w.

(** [setTimeout(reset, delay)]: returns the new handle. *)
Definition setTimeout (delay : nat) (w : world) : nat * world :=
  (next_timer w,
   World (timeoutId w) (cachedResult w) (clock w)
         (timers w ++ [(next_timer w, clock w + delay)])
         (S (next_timer w)) (fetches w)).

(** [function reset()]. *)
Definition reset (w : world) : world :=
  let w1 := match timeoutId w with
            | Some t => clearTimeout t w
            | None => w
            end in
  set_timeoutId None (set_cachedResult None w1).

(** [const doThrottle = () => ...]: returns the promise handed to the
    caller. [fn()] appends a new in-flight call. *)
Definition doThrottle (w : world) : nat * world :=
  match cachedResult w with
  | Some p => (p, w)
  | None =>
      let p := length (fetches w) in
      (p, set_cachedResult (Some p) (set_fetches (fetches w ++ [None]) w))
  end.

(** The promise of call [p] settles with [o]; the [finally] callback runs,
    [timeoutId = setTimeout(reset, wait_ms)]. A promise settles once: the
    event is ignored for a call that does not exist or has settled. *)
Definition settle (p : nat) (o : outcome T E) (w : world) : world :=
  if in_flight w p then
    let w1 := set_fetches (<[p := Some o]> (fetches w)) w in
    let '(t, w2) := setTimeout wait_ms w1 in
    set_timeoutId (Some t) w2
  else w.

(** The timer phase of the event loop: while the oldest pending timer is due
    it is removed and its callback, [reset], runs. *)
Fixpoint run_timers (fuel : nat) (w : world) : world :=
  match fuel with
  | 0 => w
  | S fuel' =>
      match timers w with
      | (_, due) :: rest =>
          if (due <=? clock w)%nat
          then run_timers fuel' (reset (set_timers rest w))
          else w
      | [] => w
      end
  end.

(** [d] milliseconds pass. Timers are taken to fire as soon as the clock
    reaches the time they are due: the timer phase runs on the new clock.
    Every firing removes a timer, so the number of pending timers is fuel
    enough (see [tick_fires_all_due]). *)
Definition tick (d : nat) (w : world) : world :=
  let w' := set_clock (clock w + d) w in
  run_timers (length (timers w')) w'.

(** What can happen to a throttle. *)
Inductive event : Type :=
| Get
| Reset
| Settle (p : nat) (o : outcome T E)
| Tick (d : nat).

(** One event; the list holds the promise returned to the caller of [Get]. *)
Definition step (w : world) (e : event) : world * list nat :=
  match e with
  | Get => let '(p, w') := doThrottle w in (w', [p])
  | Reset => (reset w, [])
  | Settle p o => (settle p o w, [])
  | Tick d => (tick d w, [])
  end.

Fixpoint run (w : world) (tr : list event) : world * list nat :=
  match tr with
  | [] => (w, [])
  | e :: tr' =>
      let '(w1, out1) := step w e in
      let '(w2, out2) := run w1 tr' in
      (w2, out1 ++ out2)
  end.

(** Total time taken by a trace. *)
Fixpoint duration (tr : list event) : nat :=
  match tr with
  | [] => 0
  | Tick d :: tr' => d + duration tr'
  | _ :: tr' => duration tr'
  end.

(** Number of calls of the throttled function in a trace. *)
Fixpoint gets (tr : list event) : nat :=
  match tr with
  | [] => 0
  | Get :: tr' => S (gets tr')
  | _ :: tr' => gets tr'
  end.

(** Callers and the clock only: nobody calls [reset()], nothing settles. *)
Definition passive (e : event) : Prop :=
  match e with
  | Get | Tick _ => True
  | _ => False
  end.

(** Nobody calls [reset()]. *)
Definition reset_free (e : event) : Prop :=
  match e with
  | Reset => False
  | _ => True
  end.

(** No pending timer comes due before the clock has passed [limit]. *)
Definition quiet_until (limit : nat) (w : world) : Prop :=
  Forall (λ x, limit < x.2) (timers w).

(** The states of a throttle on which [reset()] is never called: empty with
    nothing pending; fetching, the one call in flight being the cached one;
    or settled, with exactly the timer recorded in [timeoutId] pending. *)
Definition orderly (w : world) : Prop :=
  match cachedResult w with
  | None => timers w = [] ∧ ∀ q, in_flight w q = false
  | Some p =>
      (timers w = [] ∧ ∀ q, in_flight w q = true → q = p) ∨
      (∃ t due, timers w = [(t, due)] ∧ timeoutId w = Some t ∧
                ∀ q, in_flight w q = false)
  end.

End Throttle.
End Throttle.

(** ** temperature.ts *)

Module Temperature.

(** Modelled from the spec: [temperature.ts] is imported by the client and
    the status model but is not among the sources. The specification gives
    [fahrenheitToCelsius(f) = (f - 32) * 5/9] over native floating point. *)
Definition fahrenheitToCelcius (f : float) : float := ((f - 32) * 5 / 9)%float.

(** Modelled from the spec: [celsiusToFahrenheit(c) = c * 9/5 + 32], from the
    same absent file. *)
Definition celciusToFahrenheit (c : float) : float := (c * 9 / 5 + 32)%float.

End Temperature.

(** ** houseStatus.ts *)

(** A synchronous call either returns or throws. *)
Inductive completion (A : Type) : Type :=
| Return (v : A)
| Throw (e : js_error).
Arguments Return {A} v.
Arguments Throw {A} e.

Module HouseStatus.
Import Temperature.

Definition DEVICE_ITEM_TYPE : string := "application/vnd.nexia.device+json".
Definition THERMOSTAT_DEVICE_TYPE : string := "xxl_thermostat".

Inductive MODE : Type := COOL | HEAT | AUTO | OFF.

Inductive ZONE_STATUS : Type :=
| SystemIdle | Cooling | Heating | Waiting | FanRunning.

Inductive SCALE : Type := ScaleF | ScaleC.

(** [interface ThermostatFeature]; [set_cool_setpoint] and
    [set_heat_setpoint] hold [actions.<name>.href]. *)
Record ThermostatFeature : Type := {
  tf_temperature : float;
  set_cool_setpoint : string;
  set_heat_setpoint : string;
  scale : SCALE;
  setpoint_cool : float;
  setpoint_heat : float;
  system_status : ZONE_STATUS;
}.

(** [interface ThermostatModeFeature]; [update_thermostat_mode] holds
    [actions.update_thermostat_mode.href]. *)
Record ThermostatModeFeature : Type := {
  tmf_value : MODE;
  update_thermostat_mode : string;
}.

(** An entry of a zone's [features]. The two recognised shapes carry what
    their interface declares; of any other entry only [name] is known, in
    particular it has no [actions]. *)
Inductive Feature : Type :=
| FeatThermostat (f : ThermostatFeature)
| FeatThermostatMode (f : ThermostatModeFeature)
| FeatOther (name : string).

Definition feature_name (f : Feature) : string :=
  match f with
  | FeatThermostat _ => "thermostat"
  | FeatThermostatMode _ => "thermostat_mode"
  | FeatOther n => n
  end.

(** [interface StatusZone]. *)
Record StatusZone : Type := {
  sz_id : Z;
  sz_name : string;
  sz_type : string;
  current_zone_mode : MODE;
  temperature : float;
  setpoints_heat : float;
  setpoints_cool : float;
  sz_features : list Feature;
}.

(** [interface StatusThermostat], also used for the other device records of
    the collection, of which only [type] is read. *)
Record StatusThermostat : Type := {
  st_id : Z;
  st_name : string;
  st_type : string;
  has_outdoor_temperature : bool;
  outdoor_temperature : string;
  has_indoor_humidity : bool;
  indoor_humidity : string;
  st_system_status : string;
  manufacturer : string;
  st_features : list string;
  zones_raw : list StatusZone;
}.

(** [interface StatusChild]: [items] and [item_type] are [data.items] and
    [data.item_type]. *)
Record StatusChild : Type := {
  href : string;
  sc_type : string;
  items : list StatusThermostat;
  item_type : string;
}.

(** [interface Status]; [child] is [result._links.child]. The field [error]
    is never read. *)
Record Status : Type := {
  success : bool;
  result_name : string;
  child : list StatusChild;
}.

(** [class Zone], [class Thermostat], [class HouseStatus]: views over the raw
    records. *)
Record Zone : Type := NewZone { zone_raw : StatusZone }.
Record Thermostat : Type := NewThermostat { thermostat_raw : StatusThermostat }.

(** [c => c.data.item_type === DEVICE_ITEM_TYPE]. *)
Definition is_device_link (c : StatusChild) : bool :=
  String.eqb (item_type c) DEVICE_ITEM_TYPE.

(** [d => d.type === THERMOSTAT_DEVICE_TYPE]. *)
Definition is_thermostat (d : StatusThermostat) : bool :=
  String.eqb (st_type d) THERMOSTAT_DEVICE_TYPE.

(** [HouseStatus.thermostats()]. [found?.data.items.filter(..)] is
    [undefined] when [found] is, and [dev.map] then throws. *)
Definition thermostats (raw : Status) : completion (list Thermostat) :=
  let children := child raw in
  let found := find is_device_link children in
  let dev := (λ c, List.filter is_thermostat (items c)) <$> found in
  match dev with
  | Some dev => Return (map NewThermostat dev)
  | None => Throw (TypeError_undefined "map")
  end.

Definition Thermostat_id (t : Thermostat) : Z := st_id (thermostat_raw t).
Definition Thermostat_name (t : Thermostat) : string := st_name (thermostat_raw t).

(** [HouseStatus.thermostat(id)]. *)
Definition thermostat (raw : Status) (id : Z) : completion (option Thermostat) :=
  match thermostats raw with
  | Return ts => Return (find (λ t, Z.eqb (Thermostat_id t) id) ts)
  | Throw e => Throw e
  end.

Section Getters.

(** The built-in [Number(s)] on strings: it never throws and gives NaN for
    a string that is not a numeric literal. *)
Variable Number : string → float.

(** [get outdoorTemperature()]; [None] is [undefined]. *)
Definition outdoorTemperature (t : Thermostat) : option float :=
  if has_outdoor_temperature (thermostat_raw t)
  then Some (fahrenheitToCelcius (Number (outdoor_temperature (thermostat_raw t))))
  else None.

(** [get indoorHumidity()]. *)
Definition indoorHumidity (t : Thermostat) : option float :=
  if has_indoor_humidity (thermostat_raw t)
  then Some (Number (indoor_humidity (thermostat_raw t)))
  else None.

End Getters.

Definition zones (t : Thermostat) : list Zone :=
  map NewZone (zones_raw (thermostat_raw t)).

Definition Zone_id (z : Zone) : Z := sz_id (zone_raw z).
Definition Zone_name (z : Zone) : string := sz_name (zone_raw z).

Definition zone (t : Thermostat) (id : Z) : option Zone :=
  find (λ z, Z.eqb (Zone_id z) id) (zones t).

Definition currentTemp (z : Zone) : float :=
  fahrenheitToCelcius (temperature (zone_raw z)).

(** [get _thermostatFeature()]: the cast does not check anything, the result
    is [undefined] when no entry has the name. *)
Definition _thermostatFeature (z : Zone) : option Feature :=
  find (λ f, String.eqb (feature_name f) "thermostat") (sz_features (zone_raw z)).

Definition _thermostatModeFeature (z : Zone) : option Feature :=
  find (λ f, String.eqb (feature_name f) "thermostat_mode")
    (sz_features (zone_raw z)).

Definition setpointHeat (z : Zone) : float :=
  fahrenheitToCelcius (setpoints_heat (zone_raw z)).

Definition setpointCool (z : Zone) : float :=
  fahrenheitToCelcius (setpoints_cool (zone_raw z)).

Definition mode (z : Zone) : MODE := current_zone_mode (zone_raw z).

(** [zone._thermostatModeFeature.actions.update_thermostat_mode.href]. *)
Definition update_thermostat_mode_href (z : Zone) : completion string :=
  match _thermostatModeFeature z with
  | None => Throw (TypeError_undefined "actions")
  | Some (FeatThermostatMode f) => Return (update_thermostat_mode f)
  | Some _ => Throw (TypeError_undefined "update_thermostat_mode")
  end.

(** [zone._thermostatFeature.actions.set_cool_setpoint.href]. *)
Definition set_cool_setpoint_href (z : Zone) : completion string :=
  match _thermostatFeature z with
  | None => Throw (TypeError_undefined "actions")
  | Some (FeatThermostat f) => Return (set_cool_setpoint f)
  | Some _ => Throw (TypeError_undefined "set_cool_setpoint")
  end.

(** [zone._thermostatFeature.actions.set_heat_setpoint.href]. *)
Definition set_heat_setpoint_href (z : Zone) : completion string :=
  match _thermostatFeature z with
  | None => Throw (TypeError_undefined "actions")
  | Some (FeatThermostat f) => Return (set_heat_setpoint f)
  | Some _ => Throw (TypeError_undefined "set_heat_setpoint")
  end.

(** [get status()]; an entry without the property gives [undefined]. *)
Definition status (z : Zone) : completion (option ZONE_STATUS) :=
  match _thermostatFeature z with
  | None => Throw (TypeError_undefined "system_status")
  | Some (FeatThermostat f) => Return (Some (system_status f))
  | Some _ => Return None
  end.

End HouseStatus.

(** ** Asynchronous methods *)

(** An [async] method over mutable state [S]: its promise settles with the
    returned value or with what was thrown. An [await] is a bind: the
    awaited computation says what the environment answers and what has
    become of the state in the meantime, and a rejection ends the method. *)
Definition async (S A : Type) : Type := S → S * outcome A js_error.

Definition async_ret {S A : Type} (v : A) : async S A := λ s, (s, Fulfilled v).

Definition async_throw {S A : Type} (e : js_error) : async S A :=
  λ s, (s, Rejected e).

Definition async_bind {S A B : Type} (m : async S A) (k : A → async S B)
  : async S B :=
  λ s, match m s with
       | (s', Fulfilled v) => k v s'
       | (s', Rejected e) => (s', Rejected e)
       end.

(** A synchronous sub-expression evaluated inside an [async] body. *)
Definition async_eval {S A : Type} (c : completion A) : async S A :=
  match c with
  | Return v => async_ret v
  | Throw e => async_throw e
  end.

Notation "'await' x ← m ; k" := (async_bind m (λ x, k))
  (at level 10, x name, m at level 100, k at level 200,
   format "'[v' 'await'  x  ←  m ; '/' k ']'").

(** The JSON body of a mutation request: [{ value }], [{ cool }] or
    [{ heat }]. *)
Inductive payload : Type :=
| PayloadValue (value : HouseStatus.MODE)
| PayloadCool (cool : float)
| PayloadHeat (heat : float).

Record request : Type := Request {
  req_url : string;
  req_json : payload;
}.

(** ** mobileClient.ts *)

Module MobileClient.
Import Temperature HouseStatus.
Section MobileClient.

(** What [axios] answers: the response type and, for each request, how the
    promise of [this._client.post] settles. *)
Variable Response : Type.
Variable axios_post : string → payload → outcome Response js_error.

(** The client as far as the setters are concerned: the requests sent. *)
Record client : Type := Client { requests : list request }.

(** [this._client.post(url, json)]. *)
Definition client_post (url : string) (json : payload) : async client Response :=
  λ c, (Client (requests c ++ [Request url json]), axios_post url json).

(** [async post(url, json)]. *)
Definition post (url : string) (json : payload) : async client Response :=
  await ret ← client_post url json;
  async_ret ret.

(** [async setMode(zone, value)]. *)
Definition setMode (zone : Zone) (value : MODE) : async client Response :=
  await url ← async_eval (update_thermostat_mode_href zone);
  post url (PayloadValue value).

(** [async setCoolSetpoint(zone, cool)]. *)
Definition setCoolSetpoint (zone : Zone) (cool : float) : async client Response :=
  let cool := celciusToFahrenheit cool in
  await url ← async_eval (set_cool_setpoint_href zone);
  post url (PayloadCool cool).

(** [async setHeatSetpoint(zone, heat)]. *)
Definition setHeatSetpoint (zone : Zone) (heat : float) : async client Response :=
  let heat := celciusToFahrenheit heat in
  await url ← async_eval (set_heat_setpoint_href zone);
  post url (PayloadHeat heat).

End MobileClient.
End MobileClient.

(** ** platform.ts: the status throttle of the platform *)

Module Platform.
Import HouseStatus.
Section Platform.

Variable Response : Type.
Variable axios_post : string → payload → outcome Response js_error.

(** [_client] and [_getStatus = throttle(() => this._client.status(), 5_000)]. *)
Record platform : Type := NewPlatform {
  _client : MobileClient.client;
  _getStatus : Throttle.world (T:=Status) (E:=js_error);
}.

(** [async houseStatus()]: the promise handed out by [this._getStatus()]. *)
Definition houseStatus (p : platform) : nat * platform :=
  let '(h, w) := Throttle.doThrottle (_getStatus p) in
  (h, NewPlatform (_client p) w).

(** A method of [this._client] called from a handler of the platform. *)
Definition on_client {A : Type} (m : async MobileClient.client A)
  : async platform A :=
  λ p, let '(c, r) := m (_client p) in (NewPlatform c (_getStatus p), r).

(** The [onSet] handlers of the target state and of the two thresholds. *)
Definition onSetTargetState (z : Zone) (value : MODE) : async platform Response :=
  on_client (MobileClient.setMode Response axios_post z value).

Definition onSetCoolingThreshold (z : Zone) (val : float) : async platform Response :=
  on_client (MobileClient.setCoolSetpoint Response axios_post z val).

Definition onSetHeatingThreshold (z : Zone) (val : float) : async platform Response :=
  on_client (MobileClient.setHeatSetpoint Response axios_post z val).

End Platform.
End Platform.

(** ** The single-file client: [MobileClient] owning its status throttle *)

Module ThrottledClient.
Import Temperature HouseStatus.
Section ThrottledClient.

Variable Response : Type.
Variable axios_post : string → payload → outcome Response js_error.

(** What happens to the status throttle while a request is awaited: other
    handlers may call it, its fetch may settle, time passes. *)
Variable meanwhile : list (Throttle.event (T:=Status) (E:=js_error)).

(** [_status = throttle(getStatus, 5_000)] and the requests sent through
    [_client]. *)
Record client : Type := Client {
  _status : Throttle.world (T:=Status) (E:=js_error);
  requests : list request;
}.

Definition wait_ms : nat := 5000.

(** [async status()]: the promise handed out by [this._status()]. *)
Definition status (c : client) : nat * client :=
  let '(h, w) := Throttle.doThrottle (_status c) in
  (h, Client w (requests c)).

(** [clearCache()]. *)
Definition clearCache : async client unit :=
  λ c, (Client (Throttle.reset (_status c)) (requests c), Fulfilled tt).

(** [await this._client.post(url, json)]: the request is sent, the method
    is suspended and resumes when the answer is there. *)
Definition client_post (url : string) (json : payload) : async client Response :=
  λ c, (Client (Throttle.run wait_ms (_status c) meanwhile).1
               (requests c ++ [Request url json]),
        axios_post url json).

(** [async post(url, json)]. *)
Definition post (url : string) (json : payload) : async client Response :=
  await ret ← client_post url json;
  await _u ← clearCache;
  async_ret ret.

(** [Zone.setMode(value)], with [this.client] as the state. *)
Definition setMode (zone : Zone) (value : MODE) : async client Response :=
  await url ← async_eval (update_thermostat_mode_href zone);
  post url (PayloadValue value).

(** [Zone.setCoolSetpoint(cool)]. *)
Definition setCoolSetpoint (zone : Zone) (cool : float) : async client Response :=
  let cool := celciusToFahrenheit cool in
  await url ← async_eval (set_cool_setpoint_href zone);
  post url (PayloadCool cool).

(** [Zone.setHeatSetpoint(heat)]. *)
Definition setHeatSetpoint (zone : Zone) (heat : float) : async client Response :=
  let heat := celciusToFahrenheit heat in
  await url ← async_eval (set_heat_setpoint_href zone);
  post url (PayloadHeat heat).

(** An invocation of one of the three setters on a zone whose feature list
    gives it an endpoint [url]: the method called and the body it posts. *)
Inductive setter_call (zone : Zone)
  : string → payload → async client Response → Prop :=
| call_setMode value url :
    update_thermostat_mode_href zone = Return url →
    setter_call zone url (PayloadValue value) (setMode zone value)
| call_setCoolSetpoint cool url :
    set_cool_setpoint_href zone = Return url →
    setter_call zone url (PayloadCool (celciusToFahrenheit cool))
      (setCoolSetpoint zone cool)
| call_setHeatSetpoint heat url :
    set_heat_setpoint_href zone = Return url →
    setter_call zone url (PayloadHeat (celciusToFahrenheit heat))
      (setHeatSetpoint zone heat).

(** [async thermostats()] from [await this.status()] on: the body is that of
    [HouseStatus.thermostats], a throw rejects the promise. *)
Definition thermostats (awaited : outcome Status js_error)
  : outcome (list Thermostat) js_error :=
  match awaited with
  | Rejected e => Rejected e
  | Fulfilled st =>
      match HouseStatus.thermostats st with
      | Return ts => Fulfilled ts
      | Throw e => Rejected e
      end
  end.

End ThrottledClient.
End ThrottledClient.

(** ** Sample data *)

Module Samples.
Import HouseStatus.

Definition network_error : js_error := JsError "Error" "Network Error".

Definition mode_feature : Feature :=
  FeatThermostatMode
    {| tmf_value := COOL;
       update_thermostat_mode := "https://www.mynexia.com/mobile/xxl_zones/10/zone_mode" |}.

Definition thermostat_feature : Feature :=
  FeatThermostat
    {| tf_temperature := 75%float;
       set_cool_setpoint := "https://www.mynexia.com/mobile/xxl_zones/10/setpoints";
       set_heat_setpoint := "https://www.mynexia.com/mobile/xxl_zones/10/setpoints";
       scale := ScaleF;
       setpoint_cool := 72%float;
       setpoint_heat := 68%float;
       system_status := SystemIdle |}.

Definition zone_with (fs : list Feature) : Zone :=
  NewZone
    {| sz_id := 10; sz_name := "NativeZone"; sz_type := "xxl_zone";
       current_zone_mode := COOL; temperature := 75%float;
       setpoints_heat := 68%float; setpoints_cool := 72%float;
       sz_features := fs |}.

(** A zone with a [thermostat_mode] entry and no [thermostat] entry. *)
Definition mode_only_zone : Zone := zone_with [mode_feature].

Definition full_zone : Zone :=
  zone_with [FeatOther "connection"; thermostat_feature; mode_feature].

Definition device (id : Z) (name type : string) (has_outdoor : bool)
    (outdoor : string) : StatusThermostat :=
  {| st_id := id; st_name := name; st_type := type;
     has_outdoor_temperature := has_outdoor; outdoor_temperature := outdoor;
     has_indoor_humidity := false; indoor_humidity := "";
     st_system_status := "System Idle"; manufacturer := "Trane";
     st_features := ["thermostat"]; zones_raw := [zone_raw full_zone] |}.

Definition upstairs : StatusThermostat :=
  device 1 "Upstairs" "xxl_thermostat" true "75".
Definition garage_door : StatusThermostat :=
  device 2 "Garage" "garage_door" false "".
Definition downstairs : StatusThermostat :=
  device 3 "Downstairs" "xxl_thermostat" false "--".

Definition devices_link : StatusChild :=
  {| href := "https://www.mynexia.com/mobile/houses/1/devices";
     sc_type := "application/vnd.nexia.collection+json";
     items := [upstairs; garage_door; downstairs];
     item_type := DEVICE_ITEM_TYPE |}.

Definition automations_link : StatusChild :=
  {| href := "https://www.mynexia.com/mobile/houses/1/automations";
     sc_type := "application/vnd.nexia.collection+json";
     items := [];
     item_type := "application/vnd.nexia.automation+json" |}.

Definition house : Status :=
  {| success := true; result_name := "Home";
     child := [automations_link; devices_link] |}.

(** A house whose links hold no device collection. *)
Definition house_without_devices : Status :=
  {| success := true; result_name := "Home"; child := [automations_link] |}.

(** A coercion for the samples: NaN except on the one numeral they use. *)
Definition sample_Number (s : string) : float :=
  if String.eqb s "75" then 75%float else nan.

(** A transport that accepts every request, and one that is down. *)
Definition always_ok : string → payload → outcome unit js_error :=
  λ _ _, Fulfilled tt.

Definition always_fails : string → payload → outcome unit js_error :=
  λ _ _, Rejected network_error.

(** A client whose status has been fetched and is in the cache. *)
Definition warm_client : ThrottledClient.client :=
  ThrottledClient.Client
    (Throttle.run 5000 Throttle.init
       [Throttle.Get; Throttle.Settle 0 (Fulfilled house)]).1 [].

End Samples.

(** ** The pace of a throttle *)

Module ThrottlePace.
Import Throttle.
Section ThrottlePace.

Context {T E : Type}.
Variable wait_ms : nat.

(** How far the calls of [fn] can have got by the clock since a moment at
    which [n0] calls had been made and the clock was [c0], in each state of a
    throttle on which [reset()] is never called. Either no call has been made
    since; or, with an empty cache, the calls since fit with a full window
    each into the time since; or, while the cached promise is in flight, all
    of them but the last do; or, while its timer is pending, they fit into
    the time up to when the timer is due, which is at most a window ahead. *)
Definition paced (n0 c0 : nat) (w : world (T:=T) (E:=E)) : Prop :=
  n0 ≤ fn_calls w ∧ c0 ≤ clock w ∧
  (fn_calls w = n0 ∨
   match cachedResult w with
   | None => (fn_calls w - n0) * wait_ms + c0 ≤ clock w
   | Some _ =>
       match timers w with
       | [] => (fn_calls w - n0) * wait_ms + c0 ≤ clock w + wait_ms
       | (_, due) :: _ =>
           (fn_calls w - n0) * wait_ms + c0 ≤ due ∧ due ≤ clock w + wait_ms
       end
   end).

(** The cache only names calls of [fn] that have been made. *)
Definition cache_valid (w : world (T:=T) (E:=E)) : Prop :=
  ∀ p, cachedResult w = Some p → p < fn_calls w.

End ThrottlePace.
End ThrottlePace.

(** ** platform.ts: the maps, the lookups and the handlers *)

Module PlatformHandlers.
Import Temperature HouseStatus.
Section PlatformHandlers.

Variable Response : Type.
Variable axios_post : string → payload → outcome Response js_error.

(** A number in a template literal. *)
Variable number_to_string : Z → string.

(** [const MODE_MAP]. *)
Definition MODE_MAP (m : MODE) : Z :=
  match m with
  | OFF => 0
  | HEAT => 1
  | COOL => 2
  | AUTO => 3
  end.

(** [MODE_INV_MAP[n]] for an integer [n]; [None] is [undefined]. *)
Definition MODE_INV_MAP (n : Z) : option MODE :=
  match n with
  | 0%Z => Some OFF
  | 1%Z => Some HEAT
  | 2%Z => Some COOL
  | 3%Z => Some AUTO
  | _ => None
  end.

(** [STATE_MAP[s]], where [s] may be [undefined]. *)
Definition STATE_MAP (s : option ZONE_STATUS) : option Z :=
  match s with
  | Some Heating => Some 1%Z
  | Some Cooling => Some 2%Z
  | _ => None
  end.

Definition thermostat_not_found (id : Z) : js_error :=
  JsError "Error" ("thermostat not found: " +:+ number_to_string id).

Definition zone_not_found (tid zid : Z) : js_error :=
  JsError "Error"
    ("zone not found: " +:+ number_to_string zid +:+ " for thermostat: "
     +:+ number_to_string tid).

(** [async thermostat(id)] from [await this.houseStatus()] on. *)
Definition thermostat (awaited : outcome Status js_error) (id : Z)
  : outcome Thermostat js_error :=
  match awaited with
  | Rejected e => Rejected e
  | Fulfilled st =>
      match HouseStatus.thermostat st id with
      | Throw e => Rejected e
      | Return None => Rejected (thermostat_not_found id)
      | Return (Some ret) => Fulfilled ret
      end
  end.

(** [async zone(tid, zid)]. *)
Definition zone (awaited : outcome Status js_error) (tid zid : Z)
  : outcome Zone js_error :=
  match thermostat awaited tid with
  | Rejected e => Rejected e
  | Fulfilled t =>
      match HouseStatus.zone t zid with
      | None => Rejected (zone_not_found tid zid)
      | Some ret => Fulfilled ret
      end
  end.

(** [onGet] of [CurrentHeatingCoolingState]:
    [this.zone(t.id, z.id).then(z => STATE_MAP[z.status] || 0)]. *)
Definition getCurrentHeatingCoolingState (awaited : outcome Status js_error)
    (tid zid : Z) : outcome Z js_error :=
  match zone awaited tid zid with
  | Rejected e => Rejected e
  | Fulfilled z =>
      match HouseStatus.status z with
      | Throw e => Rejected e
      | Return s => Fulfilled (default 0%Z (STATE_MAP s))
      end
  end.

(** [onGet] of [TargetHeatingCoolingState]. *)
Definition getTargetHeatingCoolingState (awaited : outcome Status js_error)
    (tid zid : Z) : outcome Z js_error :=
  match zone awaited tid zid with
  | Rejected e => Rejected e
  | Fulfilled z => Fulfilled (MODE_MAP (mode z))
  end.

(** [onGet] of [TargetTemperature]. *)
Definition getTargetTemperature (awaited : outcome Status js_error)
    (tid zid : Z) : outcome float js_error :=
  match zone awaited tid zid with
  | Rejected e => Rejected e
  | Fulfilled zone =>
      match mode zone with
      | COOL => Fulfilled (setpointCool zone)
      | HEAT => Fulfilled (setpointHeat zone)
      | _ => Fulfilled 0x1.7e3d70a3d70a4p+4%float (* 23.89 *)
      end
  end.

(** The promise of a handler that returns nothing. *)
Definition void {A : Type} (o : outcome A js_error) : outcome unit js_error :=
  match o with
  | Fulfilled _ => Fulfilled tt
  | Rejected e => Rejected e
  end.

(** [onSet] of [TargetTemperature], from [await this.zone(t.id, z.id)] on,
    with [this._client] as the state. The two [if]s follow one another on
    the same zone. *)
Definition setTargetTemperature (awaited : outcome Status js_error)
    (tid zid : Z) (val : float) : async MobileClient.client unit :=
  match zone awaited tid zid with
  | Rejected e => async_throw e
  | Fulfilled zone =>
      await _c ←
        match mode zone with
        | COOL =>
            await _r ← MobileClient.setCoolSetpoint Response axios_post zone val;
            async_ret tt
        | _ => async_ret tt
        end;
      match mode zone with
      | HEAT =>
          await _r ← MobileClient.setHeatSetpoint Response axios_post zone val;
          async_ret tt
      | _ => async_ret tt
      end
  end.

End PlatformHandlers.
End PlatformHandlers.

(** ** More sample data *)

Module MoreSamples.
Import HouseStatus.

(** The records inside the two features of the samples. *)
Definition thermostat_record : ThermostatFeature :=
  {| tf_temperature := 75%float;
     set_cool_setpoint := "https://www.mynexia.com/mobile/xxl_zones/10/setpoints";
     set_heat_setpoint := "https://www.mynexia.com/mobile/xxl_zones/10/setpoints";
     scale := ScaleF;
     setpoint_cool := 72%float;
     setpoint_heat := 68%float;
     system_status := SystemIdle |}.

Definition mode_record : ThermostatModeFeature :=
  {| tmf_value := COOL;
     update_thermostat_mode := "https://www.mynexia.com/mobile/xxl_zones/10/zone_mode" |}.

End MoreSamples.

(** * Properties *)

(** ** The throttle *)

Section ThrottleFacts.
Import Throttle.
Context {T E : Type}.
Variable wait_ms : nat.
Implicit Types (w : world (T:=T) (E:=E)) (o : outcome T E).
Implicit Types (tr : list (event (T:=T) (E:=E))).

Lemma reset_cachedResult w : cachedResult (reset w) = None.
Proof. reflexivity. Qed.

Lemma reset_timeoutId w : timeoutId (reset w) = None.
Proof. reflexivity. Qed.

Lemma reset_fetches w : fetches (reset w) = fetches w.
Proof. unfold reset. by destruct (timeoutId w). Qed.

Lemma reset_clock w : clock (reset w) = clock w.
Proof. unfold reset. by destruct (timeoutId w). Qed.

Lemma reset_timers_length w : length (timers (reset w)) ≤ length (timers w).
Proof.
  unfold reset. destruct (timeoutId w); simpl; [|done].
  apply length_filter.
Qed.

Lemma reset_empty_noop w :
  timeoutId w = None → cachedResult w = None → reset w = w.
Proof. destruct w; simpl; intros -> ->. reflexivity. Qed.

Lemma reset_reset w : reset (reset w) = reset w.
Proof. apply reset_empty_noop; reflexivity. Qed.

Lemma doThrottle_cached w p :
  cachedResult w = Some p → doThrottle w = (p, w).
Proof. unfold doThrottle. by intros ->. Qed.

Lemma doThrottle_empty w :
  cachedResult w = None →
  doThrottle w =
    (fn_calls w,
     set_cachedResult (Some (fn_calls w)) (set_fetches (fetches w ++ [None]) w)).
Proof. unfold doThrottle. by intros ->. Qed.


Lemma settle_in_flight w p o :
  in_flight w p = true →
  settle wait_ms p o w =
    World (Some (next_timer w)) (cachedResult w) (clock w)
          (timers w ++ [(next_timer w, clock w + wait_ms)])
          (S (next_timer w)) (<[p := Some o]> (fetches w)).
Proof. unfold settle. by intros ->. Qed.

Lemma settle_result w p o :
  in_flight w p = true → result_of (settle wait_ms p o w) p = Some o.
Proof.
  intros Hp. rewrite settle_in_flight by done.
  unfold result_of, in_flight in *; simpl.
  destruct (fetches w !! p) as [[?|]|] eqn:Hl; try done.
  apply lookup_lt_Some in Hl.
  by rewrite list_lookup_insert_eq.
Qed.

(** A tick during which no timer comes due only moves the clock. *)
Lemma tick_quiet d w :
  quiet_until (clock w + d) w → tick d w = set_clock (clock w + d) w.
Proof.
  unfold quiet_until, tick. intros Hq.
  destruct (timers w) as [|[t due] rest] eqn:Ht; simpl; rewrite Ht; [done|].
  simpl. rewrite Ht. apply Forall_cons in Hq as [Hdue _]. simpl in Hdue.
  destruct (Nat.leb_spec due (clock w + d)); [lia | done].
Qed.

(** The one pending timer fires: the cache is cleared. *)
Lemma tick_fires d w t due :
  timers w = [(t, due)] → due ≤ clock w + d →
  tick d w = World None None (clock w + d) [] (next_timer w) (fetches w).
Proof.
  intros Ht Hdue. unfold tick. simpl. rewrite Ht. simpl. rewrite Ht.
  destruct (Nat.leb_spec due (clock w + d)); [|lia].
  unfold reset; simpl. by destruct (timeoutId w).
Qed.

(** While the cache holds [p] and no timer comes due, every caller is handed
    [p], [fn] is not called and only the clock moves. *)
Lemma run_passive_cached tr : ∀ w p,
  cachedResult w = Some p →
  Forall passive tr →
  quiet_until (clock w + duration tr) w →
  run wait_ms w tr =
    (set_clock (clock w + duration tr) w, replicate (gets tr) p).
Proof.
  induction tr as [|e tr IH]; intros w p Hc Hp Hq; simpl.
  - rewrite Nat.add_0_r. by destruct w.
  - apply Forall_cons in Hp as [He Hp]. destruct e as [| |q o|d]; try done; simpl.
    + rewrite (doThrottle_cached _ _ Hc). rewrite (IH w p) by done. done.
    + simpl in Hq. rewrite tick_quiet.
      2:{ eapply Forall_impl; [exact Hq|]. simpl. intros; lia. }
      rewrite (IH _ p); simpl; try done.
      * unfold set_clock; simpl. do 2 f_equal. lia.
      * unfold quiet_until in *; simpl.
        eapply Forall_impl; [exact Hq|]. simpl. intros; lia.
Qed.


Lemma run_timers_fetches fuel : ∀ w, fetches (run_timers fuel w) = fetches w.
Proof.
  induction fuel as [|fuel IH]; intros w; simpl; [done|].
  destruct (timers w) as [|[t due] rest]; [done|].
  destruct (due <=? clock w)%nat; [|done].
  by rewrite IH, reset_fetches.
Qed.

Lemma run_timers_cache_empty fuel : ∀ w,
  cachedResult w = None → cachedResult (run_timers fuel w) = None.
Proof.
  induction fuel as [|fuel IH]; intros w Hc; simpl; [done|].
  destruct (timers w) as [|[t due] rest]; [done|].
  destruct (due <=? clock w)%nat; [|done].
  by apply IH.
Qed.

Lemma tick_fetches d w : fetches (tick d w) = fetches w.
Proof. unfold tick. by rewrite run_timers_fetches. Qed.

Lemma tick_cache_empty d w :
  cachedResult w = None → cachedResult (tick d w) = None.
Proof. intros Hc. unfold tick. by apply run_timers_cache_empty. Qed.

(** The fuel of [tick] is enough: when it is done, the oldest pending timer,
    if there is one, is not due yet. *)
Lemma run_timers_fires_all_due fuel : ∀ w,
  length (timers w) ≤ fuel →
  match timers (run_timers fuel w) with
  | [] => True
  | (_, due) :: _ => clock (run_timers fuel w) < due
  end.
Proof.
  induction fuel as [|fuel IH]; intros w Hlen; simpl.
  - destruct (timers w); [done | simpl in Hlen; lia].
  - destruct (timers w) as [|[t due] rest] eqn:Ht; [by rewrite Ht|].
    destruct (Nat.leb_spec due (clock w)).
    + apply IH. etrans; [apply reset_timers_length|]. simpl in *. lia.
    + by rewrite Ht.
Qed.

Lemma tick_fires_all_due d w :
  match timers (tick d w) with
  | [] => True
  | (_, due) :: _ => clock (tick d w) < due
  end.
Proof. unfold tick. by apply run_timers_fires_all_due. Qed.

(** A whole cache-fill cycle, from an empty cache with no timer pending: the
    call that starts the fetch and what callers and the clock do while it is
    in flight ([tr1]), the fetch settling with [o], what callers and the
    clock do in less than [wait_ms] after that ([tr2]), and a tick that takes
    the clock to the end of the window or beyond. *)
Lemma cycle_in_flight w tr1 :
  cachedResult w = None → timers w = [] → Forall passive tr1 →
  run wait_ms w (Get :: tr1) =
    (World (timeoutId w) (Some (fn_calls w)) (clock w + duration tr1) []
           (next_timer w) (fetches w ++ [None]),
     replicate (S (gets tr1)) (fn_calls w)).
Proof.
  intros Hc Ht Hp. cbn [run step]. rewrite doThrottle_empty by done.
  rewrite (run_passive_cached tr1 _ (fn_calls w)); try done.
  - simpl. unfold set_clock; simpl. by rewrite Ht.
  - unfold quiet_until; simpl. rewrite Ht. constructor.
Qed.

Lemma cycle_settled w p o tr2 :
  cachedResult w = Some p → timers w = [] → in_flight w p = true →
  Forall passive tr2 → duration tr2 < wait_ms →
  run wait_ms (settle wait_ms p o w) tr2 =
    (World (Some (next_timer w)) (Some p) (clock w + duration tr2)
           [(next_timer w, clock w + wait_ms)] (S (next_timer w))
           (<[p := Some o]> (fetches w)),
     replicate (gets tr2) p).
Proof.
  intros Hc Ht Hf Hp Hd. rewrite settle_in_flight by done. rewrite Ht, Hc; simpl.
  rewrite (run_passive_cached tr2 _ p); try done.
  unfold quiet_until; simpl. repeat constructor. simpl. lia.
Qed.

Lemma cycle_window w o tr1 tr2 d :
  cachedResult w = None → timers w = [] →
  Forall passive tr1 → Forall passive tr2 →
  duration tr2 < wait_ms → wait_ms ≤ duration tr2 + d →
  let p := fn_calls w in
  let r1 := run wait_ms w (Get :: tr1) in
  let w2 := settle wait_ms p o r1.1 in
  let r2 := run wait_ms w2 tr2 in
  let w4 := tick d r2.1 in
  (r1.2 = replicate (S (gets tr1)) p ∧ fn_calls r1.1 = S (fn_calls w) ∧
   clock r1.1 = clock w + duration tr1) ∧
  (cachedResult w2 = Some p ∧ result_of w2 p = Some o ∧
   timeoutId w2 = Some (next_timer w) ∧
   timers w2 = [(next_timer w, clock r1.1 + wait_ms)]) ∧
  (r2.2 = replicate (gets tr2) p ∧ fn_calls r2.1 = S (fn_calls w) ∧
   cachedResult r2.1 = Some p ∧ result_of r2.1 p = Some o) ∧
  (cachedResult w4 = None ∧ timers w4 = [] ∧
   (doThrottle w4).1 = S p ∧ fn_calls (doThrottle w4).2 = S (S (fn_calls w))).
Proof.
  intros Hc Ht Hp1 Hp2 Hd1 Hd2 p r1 w2 r2 w4.
  subst w4 r2 w2 r1. rewrite (cycle_in_flight w tr1) by done.
  cbn [fst snd].
  set (w1 := World _ _ _ _ _ _).
  assert (Hf1 : in_flight w1 p = true).
  { unfold in_flight, w1, p, fn_calls; simpl.
    by rewrite lookup_app_r, Nat.sub_diag. }
  assert (Hins : <[p := Some o]> (fetches w ++ [None]) = fetches w ++ [Some o]).
  { unfold p, fn_calls.
    rewrite <- (Nat.add_0_r (length (fetches w))). by rewrite insert_app_r. }
  assert (Hres : mjoin ((fetches w ++ [Some o]) !! p) = Some o).
  { unfold p, fn_calls. by rewrite lookup_app_r, Nat.sub_diag. }
  rewrite (cycle_settled w1 p o tr2) by done.
  rewrite (settle_in_flight w1 p o) by done.
  cbn [fst snd]. simpl fetches. rewrite Hins.
  split; [|split; [|split]].
  - unfold fn_calls; simpl. rewrite length_app; simpl. split_and!; first [reflexivity | lia].
  - unfold result_of; simpl. by rewrite Hres.
  - unfold result_of, fn_calls; simpl. rewrite Hres, length_app; simpl.
    split_and!; first [reflexivity | lia].
  - erewrite tick_fires; [|reflexivity|simpl; lia].
    unfold doThrottle, fn_calls; simpl. rewrite length_app; simpl.
    split_and!; rewrite ?length_app; simpl;
      first [reflexivity | unfold p, fn_calls; lia].
Qed.


(** Calls with the clock running between them, when no timer is pending. *)
Lemma single_flight_over_time w tr o :
  cachedResult w = None → timers w = [] → Forall passive tr →
  let p := fn_calls w in
  let r := run wait_ms w (Get :: tr) in
  fn_calls r.1 = S (fn_calls w) ∧
  r.2 = replicate (S (gets tr)) p ∧
  in_flight r.1 p = true ∧
  Forall (λ q, result_of (settle wait_ms p o r.1) q = Some o) r.2.
Proof.
  intros Hc Ht Hp p r. subst r.
  rewrite (cycle_in_flight w tr) by done. cbn [fst snd]. fold p.
  assert (Hf : in_flight
                 (World (timeoutId w) (Some p) (clock w + duration tr) []
                        (next_timer w) (fetches w ++ [None])) p = true).
  { unfold in_flight, p, fn_calls; simpl.
    by rewrite lookup_app_r, Nat.sub_diag. }
  split_and!; [|done|done|].
  - unfold p, fn_calls; simpl. rewrite length_app; simpl. lia.
  - apply (Forall_replicate _ (S (gets tr))). by apply settle_result.
Qed.



Lemma run_timers_cachedResult fuel : ∀ w,
  cachedResult (run_timers fuel w) = cachedResult w ∨
  cachedResult (run_timers fuel w) = None.
Proof.
  induction fuel as [|fuel IH]; intros w; simpl; [by left|].
  destruct (timers w) as [|[t due] rest]; [by left|].
  destruct (due <=? clock w)%nat; [|by left].
  right. by apply run_timers_cache_empty.
Qed.

(** A promise that is not in the cache, of a call already made, never comes
    back into it: no later caller is handed it. *)
Lemma never_cached_again tr : ∀ w p,
  p < fn_calls w → cachedResult w ≠ Some p →
  cachedResult (run wait_ms w tr).1 ≠ Some p ∧
  Forall (λ q, q ≠ p) (run wait_ms w tr).2.
Proof.
  induction tr as [|e tr IH]; intros w p Hlt Hc; [by split|].
  cbn [run].
  assert (Hstep : p < fn_calls (step wait_ms w e).1 ∧
                  cachedResult (step wait_ms w e).1 ≠ Some p ∧
                  Forall (λ q, q ≠ p) (step wait_ms w e).2).
  { destruct e as [| |q o|d]; cbn [step].
    - unfold doThrottle. destruct (cachedResult w) as [q|] eqn:Hq; simpl.
      + rewrite Hq. split_and!; [done..|]. repeat constructor. congruence.
      + unfold fn_calls in *; simpl. rewrite length_app; simpl.
        split_and!; [lia| |repeat constructor; lia].
        intros [= Heq]. lia.
    - simpl. unfold fn_calls. rewrite reset_fetches. by split_and!.
    - simpl. unfold settle. destruct (in_flight w q); [|by split_and!].
      unfold fn_calls in *; simpl. rewrite length_insert. by split_and!.
    - simpl. unfold fn_calls, tick in *. rewrite run_timers_fetches. simpl.
      split_and!; [done| |done].
      destruct (run_timers_cachedResult (length (timers w))
                  (set_clock (clock w + d) w)) as [-> | ->]; done. }
  destruct (step wait_ms w e) as [w1 o1]. simpl in Hstep.
  destruct Hstep as (Hlt1 & Hc1 & Ho1).
  destruct (IH w1 p Hlt1 Hc1) as [Hc2 Ho2].
  destruct (run wait_ms w1 tr) as [w2 o2]. simpl in *.
  split; [done|]. by apply Forall_app.
Qed.

(** C5, as the code has it: [reset()] while call [p] of [fn] is in flight
    does not cancel it, and whoever holds its promise receives the outcome;
    but the outcome does not enter the cache. The promise is never handed to
    a caller again, whatever happens after the [reset()]; the fetch settling
    arms a timer and leaves the cache as it is, so when nobody has called in
    between the cache is empty and the next call, however soon, invokes [fn]
    again. *)
Theorem reset_in_flight w p o :
  in_flight w p = true →
  (in_flight (reset w) p = true ∧
   result_of (settle wait_ms p o (reset w)) p = Some o) ∧
  (∀ tr, let r := run wait_ms (reset w) tr in
         cachedResult r.1 ≠ Some p ∧ Forall (λ q, q ≠ p) r.2) ∧
  (∀ d d',
     let w1 := settle wait_ms p o (tick d (reset w)) in
     let w2 := tick d' w1 in
     result_of w2 p = Some o ∧
     timeoutId w1 = Some (next_timer (tick d (reset w))) ∧
     cachedResult w2 = None ∧
     fn_calls (doThrottle w2).2 = S (fn_calls w2) ∧
     (doThrottle w2).1 ≠ p).
Proof.
  intros Hf.
  assert (Hf0 : in_flight (reset w) p = true).
  { unfold in_flight. by rewrite reset_fetches. }
  assert (Hlt0 : p < fn_calls w).
  { unfold in_flight in Hf. unfold fn_calls.
    destruct (fetches w !! p) eqn:Hl; [|done]. by apply lookup_lt_Some in Hl. }
  split_and!.
  - done.
  - by apply settle_result.
  - intros tr r. apply never_cached_again; [|done].
    unfold fn_calls. by rewrite reset_fetches.
  - intros d d' w1 w2.
    assert (Hf1 : in_flight (tick d (reset w)) p = true).
    { unfold in_flight. by rewrite tick_fetches. }
    assert (Hc1 : cachedResult w1 = None).
    { unfold w1. rewrite settle_in_flight by done. simpl.
      by apply tick_cache_empty. }
    assert (Hc2 : cachedResult w2 = None) by by apply tick_cache_empty.
    assert (Hlt : p < fn_calls w2).
    { unfold fn_calls, w2, w1. rewrite tick_fetches, settle_in_flight by done.
      simpl. by rewrite length_insert, tick_fetches, reset_fetches. }
    split_and!; try done.
    + unfold result_of, w2. rewrite tick_fetches.
      by apply (settle_result (tick d (reset w))).
    + unfold w1. by rewrite settle_in_flight.
    + rewrite doThrottle_empty by done. unfold fn_calls; simpl.
      rewrite length_app; simpl. lia.
    + rewrite doThrottle_empty by done. simpl. lia.
Qed.

(** C9: [reset()] twice is [reset()] once, on every state; and on a state
    with nothing cached and no timer recorded it changes nothing. It is a
    total function: there is no state on which it fails. *)
Theorem reset_idempotent w :
  reset (reset w) = reset w ∧
  (cachedResult w = None ∧ timeoutId w = None → reset w = w).
Proof.
  split; [apply reset_reset|]. intros [? ?]. by apply reset_empty_noop.
Qed.

Lemma orderly_init : orderly (init (T:=T) (E:=E)).
Proof. split; [done|]. intros q. unfold in_flight; simpl. by destruct q. Qed.

Lemma orderly_step w e : reset_free e → orderly w → orderly (step wait_ms w e).1.
Proof.
  intros He Hw. destruct e as [| |q o|d]; try done; cbn [step].
  - (* a call *)
    unfold orderly in Hw. destruct (cachedResult w) as [p|] eqn:Hc.
    + rewrite (doThrottle_cached w p Hc). simpl. unfold orderly. by rewrite Hc.
    + rewrite doThrottle_empty by done. destruct Hw as [Ht Hn]. simpl.
      left. split; [done|]. intros q. unfold in_flight, fn_calls; simpl.
      destruct (decide (q < length (fetches w))) as [Hlt|Hge].
      * rewrite lookup_app_l by done. specialize (Hn q).
        unfold in_flight in Hn. by rewrite Hn.
      * destruct (decide (q = length (fetches w))) as [->|Hne]; [done|].
        rewrite lookup_ge_None_2; [done|]. rewrite length_app; simpl. lia.
  - (* the fetch settles *)
    simpl. destruct (in_flight w q) eqn:Hq; [|by unfold settle; rewrite Hq].
    rewrite settle_in_flight by done.
    unfold orderly in *. simpl. destruct (cachedResult w) as [p|].
    + destruct Hw as [[Ht Hn]|(t & due & _ & _ & Hn)]; [|by rewrite Hn in Hq].
      right. exists (next_timer w), (clock w + wait_ms). rewrite Ht.
      split_and!; [done..|]. intros q'. unfold in_flight; simpl.
      destruct (decide (q' = q)) as [->|Hne].
      * unfold in_flight in Hq. destruct (fetches w !! q) eqn:Hl; [|done].
        apply lookup_lt_Some in Hl. by rewrite list_lookup_insert_eq.
      * rewrite list_lookup_insert_ne by done.
        destruct (fetches w !! q') as [[?|]|] eqn:Hl; try done.
        assert (in_flight w q' = true) as Hq' by (unfold in_flight; by rewrite Hl).
        apply Hn in Hq'. apply Hn in Hq. congruence.
    + destruct Hw as [_ Hn]. by rewrite Hn in Hq.
  - (* time passes *)
    simpl. unfold orderly in Hw.
    destruct (cachedResult w) as [p|] eqn:Hc.
    + destruct Hw as [[Ht Hn]|(t & due & Ht & Hid & Hn)].
      * rewrite tick_quiet by (unfold quiet_until; rewrite Ht; constructor).
        unfold orderly; simpl. rewrite Hc. by left.
      * destruct (decide (due ≤ clock w + d)) as [Hdue|Hdue].
        -- rewrite (tick_fires d w t due) by done. by split.
        -- rewrite tick_quiet.
           2:{ unfold quiet_until. rewrite Ht. repeat constructor. simpl. lia. }
           unfold orderly; simpl. rewrite Hc. right. by exists t, due.
    + destruct Hw as [Ht Hn].
      rewrite tick_quiet by (unfold quiet_until; rewrite Ht; constructor).
      unfold orderly; simpl. by rewrite Hc.
Qed.

Lemma orderly_run tr : ∀ w,
  Forall reset_free tr → orderly w → orderly (run wait_ms w tr).1.
Proof.
  induction tr as [|e tr IH]; intros w Hf Hw; [done|].
  apply Forall_cons in Hf as [He Hf]. cbn [run].
  pose proof (orderly_step w e He Hw) as Hs.
  destruct (step wait_ms w e) as [w1 o1]. specialize (IH w1 Hf Hs).
  by destruct (run wait_ms w1 tr).
Qed.

(** On a throttle on which [reset()] has never been called, an empty cache
    has no timer pending and no fetch in flight: every cache-fill cycle
    starts from such a state. *)
Lemma reset_free_empty_is_quiescent tr :
  Forall reset_free tr →
  let w := (run wait_ms init tr).1 in
  cachedResult w = None → timers w = [] ∧ ∀ q, in_flight w q = false.
Proof.
  intros Hf w Hc. pose proof (orderly_run tr init Hf orderly_init) as Ho.
  fold w in Ho. unfold orderly in Ho. by rewrite Hc in Ho.
Qed.


(** C2, as the code has it: take a throttle on which [reset()] is not
    called, at any point where the cache is empty. When the fetch of a cycle
    is rejected with [e], every caller of the cycle holds the rejected
    promise, and that promise stays in the cache with a timer armed as after
    a success. Every call made less than [wait_ms] after the failure is handed
    the same rejected promise and [fn] is not called; once the clock has
    reached the end of the window the cache is empty and the next call invokes
    [fn] again. *)
Theorem failure_cached_for_window tr0 e tr1 tr2 d :
  Forall reset_free tr0 →
  let w := (run wait_ms init tr0).1 in
  cachedResult w = None →
  Forall passive tr1 → Forall passive tr2 →
  duration tr2 < wait_ms → wait_ms ≤ duration tr2 + d →
  let p := fn_calls w in
  let r1 := run wait_ms w (Get :: tr1) in
  let w2 := settle wait_ms p (Rejected e) r1.1 in
  let r2 := run wait_ms w2 tr2 in
  let w4 := tick d r2.1 in
  (Forall (λ q, result_of w2 q = Some (Rejected e)) r1.2 ∧
   length r1.2 = S (gets tr1)) ∧
  (cachedResult w2 = Some p ∧
   timers w2 = [(next_timer w, clock r1.1 + wait_ms)]) ∧
  (Forall (λ q, result_of r2.1 q = Some (Rejected e)) r2.2 ∧
   length r2.2 = gets tr2 ∧ fn_calls r2.1 = fn_calls w2) ∧
  (cachedResult w4 = None ∧ fn_calls (doThrottle w4).2 = S (fn_calls w4)).
Proof.
  intros Hf0 w Hc Hp1 Hp2 Hd1 Hd2 p r1 w2 r2 w4.
  destruct (reset_free_empty_is_quiescent tr0 Hf0 Hc) as [Ht _]. fold w in Ht.
  destruct (cycle_window w (Rejected e) tr1 tr2 d Hc Ht Hp1 Hp2 Hd1 Hd2)
    as ((Ho1 & Hn1 & _) & (Hc2 & Hr2 & _ & Ht2) & (Ho & Hn3 & _ & Hr3)
        & (Hc4 & _ & _ & Hn5)).
  fold p r1 in Ho1, Hn1, Hc2, Hr2, Ht2, Ho, Hn3, Hr3, Hc4, Hn5.
  fold w2 in Hc2, Hr2, Ht2, Ho, Hn3, Hr3, Hc4, Hn5.
  fold r2 in Ho, Hn3, Hr3, Hc4, Hn5. fold w4 in Hc4, Hn5.
  assert (Hn2 : fn_calls w2 = S (fn_calls w)).
  { unfold w2, settle. destruct (in_flight r1.1 p); [|done].
    unfold fn_calls; simpl. by rewrite length_insert. }
  assert (Hn4 : fn_calls w4 = S (fn_calls w)).
  { unfold w4, fn_calls. by rewrite tick_fetches. }
  rewrite Ho1, Ho, !length_replicate.
  split_and!; try done; try (unfold p in *; congruence);
    by apply Forall_replicate.
Qed.

End ThrottleFacts.

(** *** The throttle on concrete runs *)

Module ThrottleRuns.
Import Throttle Samples.





Lemma failure_cached_for_window_witness :
  let tr0 := [Get; Tick 100; Settle 0 (Fulfilled 3); Tick 5000] in
  let w := (run 5000 (init (T:=nat) (E:=js_error)) tr0).1 in
  let w2 := settle 5000 1 (Rejected network_error) (run 5000 w [Get; Get]).1 in
  let r2 := run 5000 w2 [Tick 1000; Get] in
  (Forall reset_free tr0 ∧ cachedResult w = None ∧ 1000 < 5000 ≤ 1000 + 4000) ∧
  cachedResult w2 = Some 1 ∧
  Forall (λ q, result_of r2.1 q = Some (Rejected network_error)) r2.2 ∧
  fn_calls r2.1 = fn_calls w2.
Proof.
  assert (Hf : Forall (reset_free (T:=nat) (E:=js_error))
                 [Get; Tick 100; Settle 0 (Fulfilled 3); Tick 5000])
    by (repeat constructor).
  split; [split_and!; first [exact Hf | reflexivity | lia]|].
  destruct (failure_cached_for_window (T:=nat) (E:=js_error) 5000 _
              network_error [Get] [Tick 1000; Get] 4000 Hf)
    as (_ & (Hc & _) & (Hr & _ & Hn) & _).
  1: reflexivity. 1,2: repeat constructor. 1,2: simpl; lia.
  split_and!; [exact Hc | exact Hr | exact Hn].
Defined.

(** C2, counterexample: the fetch fails, one second later a caller asks
    again: the cache is not empty, the caller is handed the promise that was
    rejected and [fn] is not invoked a second time. *)
Lemma failure_is_cached :
  let w := (run 5000 (init (T:=nat) (E:=js_error))
              [Get; Settle 0 (Rejected network_error); Tick 1000]).1 in
  (cachedResult w = Some 0 ∧ cachedResult w ≠ None) ∧
  result_of w 0 = Some (Rejected network_error) ∧
  (doThrottle w).1 = 0 ∧
  (fn_calls (doThrottle w).2 = fn_calls w ∧
   fn_calls (doThrottle w).2 ≠ S (fn_calls w)).
Proof. vm_compute. split_and!; first [reflexivity | discriminate | lia]. Qed.

Lemma reset_in_flight_witness :
  let w := (run 5000 (init (T:=nat) (E:=js_error)) [Get]).1 in
  let w2 := tick 100 (settle 5000 0 (Fulfilled 7) (tick 100 (reset w))) in
  let r := run 5000 (reset w) [Get; Settle 0 (Fulfilled 7); Get; Tick 5000; Get] in
  in_flight w 0 = true ∧ result_of w2 0 = Some (Fulfilled 7) ∧
  cachedResult w2 = None ∧ fn_calls (doThrottle w2).2 = S (fn_calls w2) ∧
  Forall (λ q, q ≠ 0) r.2.
Proof.
  split; [reflexivity|].
  destruct (reset_in_flight (T:=nat) (E:=js_error) 5000
              (run 5000 init [Get]).1 0 (Fulfilled 7) eq_refl)
    as (_ & Hnever & Hnext).
  destruct (Hnext 100 100) as (Hr & _ & Hc & Hn & _).
  destruct (Hnever [Get; Settle 0 (Fulfilled 7); Get; Tick 5000; Get]) as [_ Ho].
  split_and!; [exact Hr | exact Hc | exact Hn | exact Ho].
Defined.

(** C5, counterexample: [reset()] while the first fetch is in flight; the
    fetch is then fulfilled and one second later a caller asks again. The
    outcome has reached the first caller, but the cache is empty and the
    caller is handed the promise of a second call of [fn]. *)
Lemma reset_in_flight_drops_result :
  let w := (run 5000 (init (T:=nat) (E:=js_error))
              [Get; Reset; Tick 200; Settle 0 (Fulfilled 7); Tick 1000]).1 in
  result_of w 0 = Some (Fulfilled 7) ∧
  (cachedResult w = None ∧ cachedResult w ≠ Some 0) ∧
  ((doThrottle w).1 = 1 ∧ (doThrottle w).1 ≠ 0) ∧
  (fn_calls w = 1 ∧ fn_calls (doThrottle w).2 = 2).
Proof. vm_compute. split_and!; first [reflexivity | discriminate | lia]. Qed.

Lemma reset_idempotent_witness :
  let w := (run 5000 (init (T:=nat) (E:=js_error))
              [Get; Settle 0 (Fulfilled 7)]).1 in
  reset (reset w) = reset w ∧ reset (reset w) = World None None 0 [] 1 [Some (Fulfilled 7)].
Proof.
  split; [|reflexivity].
  exact (proj1 (reset_idempotent (T:=nat) (E:=js_error)
                  (run 5000 init [Get; Settle 0 (Fulfilled 7)]).1)).
Defined.

(** The timer armed by a fetch that [reset()] has overtaken is not tied to
    what the cache holds when it fires. Here the second fetch is answered at
    2000, and the timer of the first, due at 6000, empties the cache one
    second before the window of the second ends: the call at 6000 is handed
    the promise of a third fetch. *)
Lemma overtaken_timer_clears_newer_value :
  run 5000 (init (T:=nat) (E:=js_error))
    [Get; Reset; Get; Tick 1000; Settle 0 (Fulfilled 7); Tick 1000;
     Settle 1 (Fulfilled 8); Tick 3999; Get; Tick 1; Get] =
  (World None (Some 2) (1000 + 5000) [] 2 [Some (Fulfilled 7); Some (Fulfilled 8); None],
   [0; 1; 1; 2]).
Proof. reflexivity. Qed.

End ThrottleRuns.

(** ** The status document *)

Section HouseStatusFacts.
Import HouseStatus.

Lemma find_none_iff {A : Type} (f : A → bool) (l : list A) :
  find f l = None ↔ Forall (λ x, f x = false) l.
Proof.
  induction l as [|x l IH]; simpl; [by split; [constructor|]|].
  destruct (f x) eqn:Hx.
  - split; [done|]. intros H. apply Forall_cons in H as [? _]. congruence.
  - rewrite IH. split; [by constructor|]. intros H. by apply Forall_cons in H as [_ ?].
Qed.

(** [find] returns the first entry that passes the test. *)
Lemma find_first {A : Type} (f : A → bool) (l : list A) :
  Exists (λ x, f x = true) l →
  ∃ before x after,
    l = before ++ x :: after ∧ Forall (λ y, f y = false) before ∧
    f x = true ∧ find f l = Some x.
Proof.
  induction l as [|y l IH]; intros Hex; [by apply Exists_nil in Hex|].
  simpl. destruct (f y) eqn:Hy.
  - exists [], y, l. by repeat split.
  - apply Exists_cons in Hex as [Hex|Hex]; [congruence|].
    destruct (IH Hex) as (before & x & after & -> & Hb & Hx & Hf).
    exists (y :: before), x, after. repeat split; try done. by constructor.
Qed.

(** The boolean filter of the code is the filter by the property. *)
Lemma filter_is_thermostat (l : list StatusThermostat) :
  List.filter is_thermostat l =
  filter (λ d, st_type d = THERMOSTAT_DEVICE_TYPE) l.
Proof.
  induction l as [|d l IH]; [done|]. simpl. rewrite IH.
  unfold is_thermostat. destruct (String.eqb_spec (st_type d) THERMOSTAT_DEVICE_TYPE).
  - by rewrite filter_cons_True.
  - by rewrite filter_cons_False.
Qed.

Lemma map_thermostat_raw (l : list StatusThermostat) :
  thermostat_raw <$> map NewThermostat l = l.
Proof. induction l as [|d l IH]; [done|]. cbn. by f_equal. Qed.

(** Without a device link [dev] is [undefined] and [dev.map] throws. *)
Lemma thermostats_without_link (raw : Status) :
  Forall (λ c, item_type c ≠ DEVICE_ITEM_TYPE) (child raw) →
  thermostats raw = Throw (TypeError_undefined "map").
Proof.
  intros Hno. unfold thermostats.
  assert (find is_device_link (child raw) = None) as ->; [|done].
  apply find_none_iff. eapply Forall_impl; [exact Hno|]. simpl.
  intros c Hc. by apply String.eqb_neq.
Qed.

(** C3, on a document whose only link is not the device collection:
    [thermostats()] does not return the empty sequence, it throws the
    [TypeError] of [dev.map] on [undefined]; and so the promise of the
    client's [thermostats()] is rejected. *)
Theorem thermostats_missing_link_throws :
  thermostats Samples.house_without_devices = Throw (TypeError_undefined "map") ∧
  thermostats Samples.house_without_devices ≠ Return [] ∧
  ThrottledClient.thermostats (Fulfilled Samples.house_without_devices)
    = Rejected (TypeError_undefined "map").
Proof. split_and!; [reflexivity | discriminate | reflexivity]. Qed.

(** C8: when the links hold an entry of the device-collection item type,
    [thermostats()] returns, and what it returns are views of exactly the
    items of the first such entry whose [type] is the thermostat marker, in
    the order of the document, each as often as it occurs there. *)
Theorem thermostats_filter_in_order (raw : Status) :
  Exists (λ c, item_type c = DEVICE_ITEM_TYPE) (child raw) →
  ∃ before c after ts,
    (child raw = before ++ c :: after ∧
     Forall (λ c', item_type c' ≠ DEVICE_ITEM_TYPE) before ∧
     item_type c = DEVICE_ITEM_TYPE) ∧
    thermostats raw = Return ts ∧
    thermostat_raw <$> ts =
      filter (λ d, st_type d = THERMOSTAT_DEVICE_TYPE) (items c).
Proof.
  intros Hex.
  destruct (find_first is_device_link (child raw)) as (before & c & after & Hl & Hb & Hc & Hf).
  { eapply Exists_impl; [exact Hex|]. simpl. intros c Hc.
    unfold is_device_link. by apply String.eqb_eq. }
  exists before, c, after, (map NewThermostat (List.filter is_thermostat (items c))).
  split_and!.
  - done.
  - eapply Forall_impl; [exact Hb|]. simpl. intros c' Hc'.
    by apply String.eqb_neq.
  - by apply String.eqb_eq.
  - unfold thermostats. by rewrite Hf.
  - by rewrite map_thermostat_raw, filter_is_thermostat.
Qed.

(** What the equation of C8 says of each item and of their order. *)
Corollary thermostats_members_and_order (raw : Status) (ts : list Thermostat) c :
  find is_device_link (child raw) = Some c →
  thermostats raw = Return ts →
  (∀ d, d ∈ (thermostat_raw <$> ts) ↔
        d ∈ items c ∧ st_type d = THERMOSTAT_DEVICE_TYPE) ∧
  sublist (thermostat_raw <$> ts) (items c).
Proof.
  intros Hf Hts. unfold thermostats in Hts.
  rewrite Hf in Hts. simpl in Hts. injection Hts as <-.
  rewrite map_thermostat_raw, filter_is_thermostat.
  split.
  - intros d. rewrite list_elem_of_filter. tauto.
  - apply sublist_filter.
Qed.

Example thermostats_of_sample_house :
  thermostats Samples.house =
    Return [NewThermostat Samples.upstairs; NewThermostat Samples.downstairs].
Proof. reflexivity. Qed.

Lemma thermostats_filter_in_order_witness :
  Exists (λ c, item_type c = DEVICE_ITEM_TYPE) (child Samples.house) ∧
  ∃ before c after ts,
    (child Samples.house = before ++ c :: after ∧
     Forall (λ c', item_type c' ≠ DEVICE_ITEM_TYPE) before ∧
     item_type c = DEVICE_ITEM_TYPE) ∧
    thermostats Samples.house = Return ts ∧
    thermostat_raw <$> ts =
      filter (λ d, st_type d = THERMOSTAT_DEVICE_TYPE) (items c).
Proof.
  assert (Hex : Exists (λ c, item_type c = DEVICE_ITEM_TYPE) (child Samples.house)).
  { apply Exists_cons_tl, Exists_cons_hd. reflexivity. }
  split; [exact Hex | exact (thermostats_filter_in_order Samples.house Hex)].
Defined.

(** C10: the getter is a total function into "a number or [undefined]":
    [undefined] exactly when the flag is false, whatever the string; with the
    flag set, the conversion of [Number] of the string; and NaN, not
    [undefined], when [Number] of the string is NaN. *)
Theorem outdoorTemperature_total (Number : string → float) (t : Thermostat) :
  (has_outdoor_temperature (thermostat_raw t) = false →
   outdoorTemperature Number t = None) ∧
  (has_outdoor_temperature (thermostat_raw t) = true →
   outdoorTemperature Number t =
     Some (Temperature.fahrenheitToCelcius
             (Number (outdoor_temperature (thermostat_raw t))))) ∧
  (has_outdoor_temperature (thermostat_raw t) = true →
   Number (outdoor_temperature (thermostat_raw t)) = nan →
   outdoorTemperature Number t = Some nan).
Proof.
  unfold outdoorTemperature. split_and!; intros ->; [done..|].
  by intros ->.
Qed.

Lemma outdoorTemperature_total_witness :
  outdoorTemperature Samples.sample_Number (NewThermostat Samples.garage_door)
    = None ∧
  outdoorTemperature Samples.sample_Number (NewThermostat Samples.upstairs)
    = Some (Temperature.fahrenheitToCelcius 75) ∧
  outdoorTemperature Samples.sample_Number
    (NewThermostat (Samples.device 3 "Downstairs" "xxl_thermostat" true "--"))
    = Some nan.
Proof.
  split_and!.
  - apply (outdoorTemperature_total Samples.sample_Number
             (NewThermostat Samples.garage_door)). reflexivity.
  - apply (outdoorTemperature_total Samples.sample_Number
             (NewThermostat Samples.upstairs)). reflexivity.
  - apply (outdoorTemperature_total Samples.sample_Number
             (NewThermostat (Samples.device 3 "Downstairs" "xxl_thermostat" true "--")));
      reflexivity.
Defined.

End HouseStatusFacts.

(** ** The setters *)

Section FeatureLookup.
Import HouseStatus.

Lemma no_thermostat_feature (z : Zone) :
  Forall (λ f, feature_name f ≠ "thermostat") (sz_features (zone_raw z)) →
  _thermostatFeature z = None.
Proof.
  intros Hno. apply find_none_iff. eapply Forall_impl; [exact Hno|]. simpl.
  intros f Hf. by apply String.eqb_neq.
Qed.

Lemma no_thermostat_mode_feature (z : Zone) :
  Forall (λ f, feature_name f ≠ "thermostat_mode") (sz_features (zone_raw z)) →
  _thermostatModeFeature z = None.
Proof.
  intros Hno. apply find_none_iff. eapply Forall_impl; [exact Hno|]. simpl.
  intros f Hf. by apply String.eqb_neq.
Qed.

End FeatureLookup.

Section MobileClientFacts.
Import HouseStatus MobileClient.
Variable Response : Type.
Variable axios_post : string → payload → outcome Response js_error.

Abbreviation setMode := (MobileClient.setMode Response axios_post).
Abbreviation setCoolSetpoint := (MobileClient.setCoolSetpoint Response axios_post).
Abbreviation setHeatSetpoint := (MobileClient.setHeatSetpoint Response axios_post).

(** C6, as the code has it: on a zone without a [thermostat] entry the two
    setpoint setters are rejected with the [TypeError] of reading [actions]
    on [undefined], and on a zone without a [thermostat_mode] entry so is
    [setMode]; no request is sent. The error is the runtime's: its name is not
    [FeatureNotFound]. *)
Theorem missing_feature_rejects_with_TypeError (zone : Zone) (c : client) :
  (Forall (λ f, feature_name f ≠ "thermostat") (sz_features (zone_raw zone)) →
   ∀ temp,
     setCoolSetpoint zone temp c = (c, Rejected (TypeError_undefined "actions")) ∧
     setHeatSetpoint zone temp c = (c, Rejected (TypeError_undefined "actions"))) ∧
  (Forall (λ f, feature_name f ≠ "thermostat_mode") (sz_features (zone_raw zone)) →
   ∀ value,
     setMode zone value c = (c, Rejected (TypeError_undefined "actions"))) ∧
  err_name (TypeError_undefined "actions") = "TypeError".
Proof.
  split_and!; [| |done].
  - intros Hno temp. apply no_thermostat_feature in Hno.
    unfold MobileClient.setCoolSetpoint, MobileClient.setHeatSetpoint,
      set_cool_setpoint_href, set_heat_setpoint_href, async_bind.
    by rewrite Hno.
  - intros Hno value. apply no_thermostat_mode_feature in Hno.
    unfold MobileClient.setMode, update_thermostat_mode_href, async_bind.
    by rewrite Hno.
Qed.

End MobileClientFacts.

Section ThrottledClientFacts.
Import HouseStatus ThrottledClient.
Variable Response : Type.
Variable axios_post : string → payload → outcome Response js_error.
Variable meanwhile : list (Throttle.event (T:=Status) (E:=js_error)).

Abbreviation post := (ThrottledClient.post Response axios_post meanwhile).
Abbreviation setMode := (ThrottledClient.setMode Response axios_post meanwhile).
Abbreviation setCoolSetpoint :=
  (ThrottledClient.setCoolSetpoint Response axios_post meanwhile).
Abbreviation setHeatSetpoint :=
  (ThrottledClient.setHeatSetpoint Response axios_post meanwhile).
Abbreviation setter_call := (ThrottledClient.setter_call Response axios_post meanwhile).

(** [post]: the request is sent; [clearCache()] runs when the answer is a
    success and is skipped when [await] throws. *)
Lemma post_unfold url json (c : client) :
  post url json c =
    let w := (Throttle.run wait_ms (_status c) meanwhile).1 in
    let sent := requests c ++ [Request url json] in
    match axios_post url json with
    | Fulfilled ret => (Client (Throttle.reset w) sent, Fulfilled ret)
    | Rejected e => (Client w sent, Rejected e)
    end.
Proof.
  unfold ThrottledClient.post, async_bind, client_post, clearCache, async_ret.
  by destruct (axios_post url json).
Qed.

Lemma setter_call_post zone url json m (c : client) :
  setter_call zone url json m → m c = post url json c.
Proof.
  intros [value u Hu|cool u Hu|heat u Hu];
    unfold ThrottledClient.setMode, ThrottledClient.setCoolSetpoint,
      ThrottledClient.setHeatSetpoint, async_bind;
    by rewrite Hu.
Qed.

(** The same failure on the methods of [Zone] of the single-file client. *)
Lemma missing_feature_rejects_zone_methods (zone : Zone) (c : client) :
  (_thermostatFeature zone = None →
   ∀ temp,
     setCoolSetpoint zone temp c = (c, Rejected (TypeError_undefined "actions")) ∧
     setHeatSetpoint zone temp c = (c, Rejected (TypeError_undefined "actions"))) ∧
  (_thermostatModeFeature zone = None →
   ∀ value,
     setMode zone value c = (c, Rejected (TypeError_undefined "actions"))).
Proof.
  split.
  - intros Hno temp.
    unfold ThrottledClient.setCoolSetpoint, ThrottledClient.setHeatSetpoint,
      set_cool_setpoint_href, set_heat_setpoint_href, async_bind.
    by rewrite Hno.
  - intros Hno value.
    unfold ThrottledClient.setMode, update_thermostat_mode_href, async_bind.
    by rewrite Hno.
Qed.

(** C4, as the code has it: a call of [setMode], [setCoolSetpoint] or
    [setHeatSetpoint] on a zone that has the endpoint sends the request and
    settles as the request does. When the request succeeds the status cache
    is empty afterwards and the next [status()] invokes the fetch again; when
    it fails the throttle is as the events of the meantime left it:
    [clearCache()] has not run. *)
Theorem write_invalidation (zone : Zone) url json m (c : client) :
  setter_call zone url json m →
  let c' := (m c).1 in
  requests c' = requests c ++ [Request url json] ∧
  (m c).2 = axios_post url json ∧
  match axios_post url json with
  | Fulfilled _ =>
      Throttle.cachedResult (_status c') = None ∧
      Throttle.fn_calls (_status (status c').2)
        = S (Throttle.fn_calls (_status c'))
  | Rejected _ =>
      _status c' = (Throttle.run wait_ms (_status c) meanwhile).1
  end.
Proof.
  intros Hcall c'. subst c'. rewrite (setter_call_post _ _ _ _ c Hcall).
  rewrite post_unfold. cbv zeta.
  destruct (axios_post url json) as [ret|e]; cbn [fst snd requests _status];
    [|done].
  split_and!; [done..|].
  unfold status. cbn [_status].
  rewrite doThrottle_empty by done.
  unfold Throttle.fn_calls; simpl. rewrite length_app; simpl. lia.
Qed.

End ThrottledClientFacts.

Section PlatformFacts.
Import HouseStatus Platform.
Variable Response : Type.
Variable axios_post : string → payload → outcome Response js_error.

(** In [platform.ts] the throttle belongs to the platform and the client
    never touches it: whatever a setter does and however its request
    settles, [_getStatus] is as it was (the [TODO] of [houseStatus()]). *)
Lemma platform_setters_keep_throttle {A : Type}
    (m : async MobileClient.client A) (p : platform) :
  _getStatus (on_client m p).1 = _getStatus p.
Proof. unfold on_client. by destruct (m (_client p)). Qed.

Lemma platform_houseStatus_after_setMode (z : Zone) (value : MODE) p h :
  Throttle.cachedResult (_getStatus p) = Some h →
  let p' := (onSetTargetState Response axios_post z value p).1 in
  (houseStatus p').1 = h ∧
  Throttle.fn_calls (_getStatus (houseStatus p').2)
    = Throttle.fn_calls (_getStatus p).
Proof.
  intros Hc p'. unfold houseStatus.
  assert (_getStatus p' = _getStatus p) as ->
    by apply platform_setters_keep_throttle.
  by rewrite (doThrottle_cached _ _ Hc).
Qed.

End PlatformFacts.

(** *** The setters on concrete zones *)

Module SetterRuns.
Import HouseStatus Samples.

Lemma missing_feature_rejects_with_TypeError_witness :
  let c := MobileClient.Client [] in
  (Forall (λ f, feature_name f ≠ "thermostat")
     (sz_features (zone_raw mode_only_zone)) ∧
   MobileClient.setCoolSetpoint unit always_ok mode_only_zone 22 c
     = (c, Rejected (TypeError_undefined "actions"))) ∧
  (Forall (λ f, feature_name f ≠ "thermostat_mode")
     (sz_features (zone_raw (zone_with [thermostat_feature]))) ∧
   MobileClient.setMode unit always_ok (zone_with [thermostat_feature]) HEAT c
     = (c, Rejected (TypeError_undefined "actions"))).
Proof.
  assert (H1 : Forall (λ f, feature_name f ≠ "thermostat")
                 (sz_features (zone_raw mode_only_zone)))
    by (repeat constructor; discriminate).
  assert (H2 : Forall (λ f, feature_name f ≠ "thermostat_mode")
                 (sz_features (zone_raw (zone_with [thermostat_feature]))))
    by (repeat constructor; discriminate).
  split; (split; [assumption|]).
  - exact (proj1 (proj1 (missing_feature_rejects_with_TypeError unit always_ok
                           mode_only_zone (MobileClient.Client [])) H1 22%float)).
  - exact (proj1 (proj2 (missing_feature_rejects_with_TypeError unit always_ok
                           (zone_with [thermostat_feature])
                           (MobileClient.Client []))) H2 HEAT).
Defined.

(** C6, counterexample: [setCoolSetpoint] on a zone whose features hold a
    [thermostat_mode] entry only. The promise is rejected with an error
    named [TypeError], not [FeatureNotFound], raised by the access to
    [actions] of the missing feature. *)
Lemma missing_feature_is_not_FeatureNotFound :
  let r := MobileClient.setCoolSetpoint unit always_ok mode_only_zone 22
             (MobileClient.Client []) in
  ∃ e, r.2 = Rejected e ∧
       (err_name e = "TypeError" ∧ err_name e ≠ "FeatureNotFound") ∧
       err_message e = "Cannot read properties of undefined (reading 'actions')" ∧
       MobileClient.requests r.1 = [].
Proof.
  exists (TypeError_undefined "actions").
  split_and!; [reflexivity | reflexivity | discriminate | reflexivity..].
Qed.

Lemma write_invalidation_witness :
  let url := "https://www.mynexia.com/mobile/xxl_zones/10/zone_mode" in
  let m := ThrottledClient.setMode unit always_ok [] full_zone HEAT in
  ThrottledClient.setter_call unit always_ok [] full_zone url (PayloadValue HEAT) m ∧
  Throttle.cachedResult (ThrottledClient._status warm_client) = Some 0 ∧
  Throttle.cachedResult (ThrottledClient._status (m warm_client).1) = None ∧
  Throttle.fn_calls
    (ThrottledClient._status (ThrottledClient.status (m warm_client).1).2) = 2.
Proof.
  assert (Hcall : ThrottledClient.setter_call unit always_ok [] full_zone
            "https://www.mynexia.com/mobile/xxl_zones/10/zone_mode"
            (PayloadValue HEAT)
            (ThrottledClient.setMode unit always_ok [] full_zone HEAT))
    by (by constructor).
  split; [exact Hcall|]. split; [reflexivity|].
  destruct (write_invalidation unit always_ok [] full_zone _ _ _ warm_client Hcall)
    as (_ & _ & Hc & Hn).
  split; [exact Hc | exact Hn].
Defined.

(** C4, counterexample: the status is in the cache, [setMode] is called on a
    zone that has the endpoint, and the request fails. The request has been
    sent and the failure reaches the caller, but the cache has not been
    invalidated: the next [status()] is handed the cached promise and the
    fetch is not invoked. And on a zone without the endpoint no request is
    sent at all, whatever the transport would answer. *)
Lemma failed_write_keeps_cache :
  let r := ThrottledClient.setMode unit always_fails [] full_zone HEAT warm_client in
  let r' := ThrottledClient.setMode unit always_ok []
              (zone_with [thermostat_feature]) HEAT warm_client in
  r.2 = Rejected network_error ∧
  ThrottledClient.requests r.1 =
    [Request "https://www.mynexia.com/mobile/xxl_zones/10/zone_mode"
       (PayloadValue HEAT)] ∧
  (Throttle.cachedResult (ThrottledClient._status r.1) = Some 0 ∧
   Throttle.cachedResult (ThrottledClient._status r.1) ≠ None) ∧
  (ThrottledClient.status r.1).1 = 0 ∧
  (Throttle.fn_calls (ThrottledClient._status (ThrottledClient.status r.1).2) = 1 ∧
   Throttle.fn_calls (ThrottledClient._status (ThrottledClient.status r.1).2)
     ≠ S (Throttle.fn_calls (ThrottledClient._status r.1))) ∧
  (ThrottledClient.requests r'.1 = [] ∧
   Throttle.cachedResult (ThrottledClient._status r'.1) = Some 0).
Proof.
  split_and!; first [reflexivity | discriminate | (vm_compute; lia)].
Qed.

End SetterRuns.


(** ** More on the throttle *)

Section ThrottlePaceFacts.
Import Throttle ThrottlePace.
Context {T E : Type}.
Variable wait_ms : nat.
Implicit Types (w : world (T:=T) (E:=E)) (o : outcome T E).
Implicit Types (tr : list (event (T:=T) (E:=E))).

Lemma run_timers_clock fuel : ∀ w, clock (run_timers fuel w) = clock w.
Proof.
  induction fuel as [|fuel IH]; intros w; simpl; [done|].
  destruct (timers w) as [|[t due] rest]; [done|].
  destruct (due <=? clock w)%nat; [|done].
  by rewrite IH, reset_clock.
Qed.

Lemma step_clock w e :
  clock (step wait_ms w e).1 = clock w + duration [e].
Proof.
  destruct e as [| |q o|d]; cbn [step duration].
  - unfold doThrottle. destruct (cachedResult w); simpl; lia.
  - cbn [fst]. rewrite reset_clock. lia.
  - cbn [fst]. unfold settle. destruct (in_flight w q); simpl; lia.
  - cbn [fst]. unfold tick. rewrite run_timers_clock. simpl. lia.
Qed.

(** The clock of a run is the time its ticks add up to. *)
Lemma run_clock tr : ∀ w, clock (run wait_ms w tr).1 = clock w + duration tr.
Proof.
  induction tr as [|e tr IH]; intros w; [simpl; lia|].
  cbn [run]. pose proof (step_clock w e) as Hs.
  destruct (step wait_ms w e) as [w1 o1]. specialize (IH w1).
  destruct (run wait_ms w1 tr) as [w2 o2]. simpl in *.
  destruct e; simpl in *; lia.
Qed.

Lemma paced_start w : paced wait_ms (fn_calls w) (clock w) w.
Proof. unfold paced. split_and!; [lia..|by left]. Qed.

Lemma paced_step n0 c0 w e :
  reset_free e → orderly w → paced wait_ms n0 c0 w →
  paced wait_ms n0 c0 (step wait_ms w e).1.
Proof.
  intros He Ho (Hn & Hk & Hp). destruct e as [| |q o|d]; try done; cbn [step].
  - (* a call *)
    unfold orderly in Ho. unfold paced.
    destruct (cachedResult w) as [p|] eqn:Hc.
    + rewrite (doThrottle_cached w p Hc). simpl. by rewrite Hc.
    + rewrite doThrottle_empty by done. destruct Ho as [Ht _]. simpl.
      rewrite Ht. unfold fn_calls in *; simpl. rewrite length_app; simpl.
      split_and!; [lia..|]. right. destruct Hp as [Hp|Hp]; nia.
  - (* the fetch settles *)
    cbn [fst]. destruct (in_flight w q) eqn:Hq;
      [|by unfold settle; rewrite Hq].
    rewrite settle_in_flight by done.
    unfold orderly in Ho. unfold paced. simpl.
    unfold fn_calls in *; simpl. rewrite length_insert.
    split_and!; [done..|].
    destruct Hp as [Hp|Hp]; [by left|right].
    destruct (cachedResult w) as [p|].
    + destruct Ho as [[Ht Hno]|(t & due & _ & _ & Hno)]; [|by rewrite Hno in Hq].
      rewrite Ht in *. simpl. lia.
    + destruct Ho as [_ Hno]. by rewrite Hno in Hq.
  - (* time passes *)
    cbn [fst]. unfold orderly in Ho.
    destruct (cachedResult w) as [p|] eqn:Hc.
    + destruct Ho as [[Ht Hno]|(t & due & Ht & Hid & Hno)].
      * rewrite tick_quiet by (unfold quiet_until; rewrite Ht; constructor).
        unfold paced; simpl. rewrite Hc. rewrite Ht in *.
        unfold fn_calls in *; simpl.
        split_and!; [lia..|]. destruct Hp as [Hp|Hp]; [by left|right; lia].
      * rewrite Ht in Hp.
        destruct (decide (due ≤ clock w + d)) as [Hdue|Hdue].
        -- rewrite (tick_fires d w t due) by done.
           unfold paced, fn_calls in *; simpl.
           split_and!; [lia..|]. destruct Hp as [Hp|Hp]; [by left|right; lia].
        -- rewrite tick_quiet.
           2:{ unfold quiet_until. rewrite Ht. repeat constructor. simpl. lia. }
           unfold paced; simpl. rewrite Hc, Ht. unfold fn_calls in *; simpl.
           split_and!; [lia..|]. destruct Hp as [Hp|Hp]; [by left|right; lia].
    + destruct Ho as [Ht Hno].
      rewrite tick_quiet by (unfold quiet_until; rewrite Ht; constructor).
      unfold paced; simpl. rewrite Hc. unfold fn_calls in *; simpl.
      split_and!; [lia..|]. destruct Hp as [Hp|Hp]; [by left|right; lia].
Qed.

Lemma paced_run n0 c0 tr : ∀ w,
  Forall reset_free tr → orderly w → paced wait_ms n0 c0 w →
  paced wait_ms n0 c0 (run wait_ms w tr).1.
Proof.
  induction tr as [|e tr IH]; intros w Hf Ho Hp; [done|].
  apply Forall_cons in Hf as [He Hf]. cbn [run].
  pose proof (orderly_step wait_ms w e He Ho) as Ho1.
  pose proof (paced_step n0 c0 w e He Ho Hp) as Hp1.
  destruct (step wait_ms w e) as [w1 o1]. specialize (IH w1 Hf Ho1 Hp1).
  by destruct (run wait_ms w1 tr).
Qed.

Lemma paced_bound n0 c0 w :
  paced wait_ms n0 c0 w →
  (fn_calls w - n0 - 1) * wait_ms ≤ clock w - c0.
Proof.
  unfold paced. intros (Hn & Hk & [Hp|Hp]).
  - rewrite Hp. replace (n0 - n0 - 1) with 0 by lia. lia.
  - destruct (cachedResult w); [|nia].
    destruct (timers w) as [|[t due] rest]; nia.
Qed.

(** X1 (rate limit): on a throttle on which [reset()] is never called, take
    any stretch of its life. The calls of [fn] made during the stretch, but
    one, fit with a full window each into the time the stretch takes; so a
    stretch shorter than [wait_ms] sees at most one call of [fn]. *)
Theorem rate_limit tr1 tr2 :
  Forall reset_free tr1 → Forall reset_free tr2 →
  let w1 := (run wait_ms (init (T:=T) (E:=E)) tr1).1 in
  let w2 := (run wait_ms w1 tr2).1 in
  clock w2 = clock w1 + duration tr2 ∧
  (fn_calls w2 - fn_calls w1 - 1) * wait_ms ≤ duration tr2 ∧
  (duration tr2 < wait_ms → fn_calls w2 ≤ S (fn_calls w1)).
Proof.
  intros Hf1 Hf2 w1 w2.
  assert (Hc : clock w2 = clock w1 + duration tr2)
    by (unfold w2; by rewrite run_clock).
  pose proof (orderly_run wait_ms tr1 init Hf1 orderly_init) as Ho. fold w1 in Ho.
  pose proof (paced_run _ _ tr2 w1 Hf2 Ho (paced_start w1)) as Hp. fold w2 in Hp.
  pose proof (paced_bound _ _ _ Hp) as Hb.
  assert (Hb' : (fn_calls w2 - fn_calls w1 - 1) * wait_ms ≤ duration tr2) by lia.
  split_and!; [done..|]. intros Hd.
  destruct (decide (fn_calls w2 ≤ S (fn_calls w1))) as [|Hgt]; [done|].
  assert (1 ≤ fn_calls w2 - fn_calls w1 - 1) by lia. nia.
Qed.

(** X2: on a throttle on which [reset()] is never called, at most one call
    of [fn] is in flight at any time, and it is the one whose promise the
    cache holds. *)
Theorem one_fetch_in_flight tr :
  Forall reset_free tr →
  let w := (run wait_ms (init (T:=T) (E:=E)) tr).1 in
  ∀ p, in_flight w p = true →
       cachedResult w = Some p ∧ ∀ q, in_flight w q = true → q = p.
Proof.
  intros Hf w p Hp.
  pose proof (orderly_run wait_ms tr init Hf orderly_init) as Ho.
  fold w in Ho. unfold orderly in Ho.
  destruct (cachedResult w) as [c|].
  - destruct Ho as [[_ Hn]|(t & due & _ & _ & Hn)]; [|by rewrite Hn in Hp].
    assert (p = c) as -> by (by apply Hn).
    split; [done|]. intros q Hq. by apply Hn.
  - destruct Ho as [_ Hn]. by rewrite Hn in Hp.
Qed.

Lemma cache_valid_run tr : ∀ w,
  cache_valid w →
  let r := run wait_ms w tr in
  cache_valid r.1 ∧
  fn_calls w ≤ fn_calls r.1 ≤ fn_calls w + gets tr ∧
  length r.2 = gets tr ∧
  Forall (λ p, p < fn_calls r.1) r.2.
Proof.
  induction tr as [|e tr IH]; intros w Hv; [simpl; split_and!; [done|lia..|done|done]|].
  cbn [run].
  assert (Hstep : cache_valid (step wait_ms w e).1 ∧
            fn_calls w ≤ fn_calls (step wait_ms w e).1 ≤ fn_calls w + gets [e] ∧
            length (step wait_ms w e).2 = gets [e] ∧
            Forall (λ p, p < fn_calls (step wait_ms w e).1) (step wait_ms w e).2).
  { destruct e as [| |q o|d]; cbn [step gets].
    - unfold doThrottle. destruct (cachedResult w) as [p|] eqn:Hc; simpl.
      + split_and!; [done|lia|lia|done|]. repeat constructor. by apply Hv.
      + unfold cache_valid, fn_calls; simpl. rewrite length_app; simpl.
        split_and!; [|lia|lia|done|repeat constructor; lia].
        intros p [= <-]. lia.
    - simpl. unfold cache_valid, fn_calls. rewrite reset_fetches.
      split_and!; [done|lia|lia|done|done].
    - simpl. unfold settle. destruct (in_flight w q); [|split_and!; [done|lia|lia|done|done]].
      unfold cache_valid, fn_calls in *; simpl. rewrite length_insert.
      split_and!; [done|lia|lia|done|done].
    - simpl. unfold cache_valid, fn_calls, tick in *.
      rewrite run_timers_fetches. simpl.
      split_and!; [|lia|lia|done|done].
      intros p Hp.
      destruct (run_timers_cachedResult (length (timers w))
                  (set_clock (clock w + d) w)) as [Heq | Heq];
        rewrite Heq in Hp; [by apply Hv | done]. }
  destruct (step wait_ms w e) as [w1 o1]. simpl in Hstep.
  destruct Hstep as (Hv1 & Hn1 & Hl1 & Ho1).
  specialize (IH w1 Hv1). simpl in IH.
  destruct (run wait_ms w1 tr) as [w2 o2]. simpl in *.
  destruct IH as (Hv2 & Hn2 & Hl2 & Ho2).
  split_and!; [done| | | |].
  - lia.
  - destruct e; simpl in *; lia.
  - rewrite length_app. destruct e; simpl in *; lia.
  - apply Forall_app. split; [|done].
    eapply Forall_impl; [exact Ho1|]. simpl. intros; lia.
Qed.

(** X3 (fetch on demand only): whatever happens to a throttle, calls,
    [reset()]s, fetches settling, timers firing, [fn] is invoked at most once
    per call of the throttled function and never otherwise, every caller is
    handed a promise, and each promise handed out is that of a call of [fn]
    that has been made. *)
Theorem fetch_on_demand_only tr :
  let r := run wait_ms (init (T:=T) (E:=E)) tr in
  fn_calls r.1 ≤ gets tr ∧
  length r.2 = gets tr ∧
  Forall (λ p, p < fn_calls r.1) r.2.
Proof.
  intros r.
  destruct (cache_valid_run tr init) as (_ & Hn & Hl & Ho); [by intros p|].
  fold r in Hn, Hl, Ho. unfold fn_calls in *. simpl in Hn.
  split_and!; [lia|done|done].
Qed.

Lemma reset_quiescent w :
  orderly w → (∀ q, in_flight w q = false) →
  cachedResult (reset w) = None ∧ timers (reset w) = [].
Proof.
  intros Ho Hn. split; [done|]. unfold orderly in Ho. unfold reset.
  destruct (cachedResult w) as [p|].
  - destruct Ho as [[Ht _]|(t & due & Ht & Hid & _)].
    + destruct (timeoutId w); simpl; by rewrite Ht.
    + rewrite Hid. simpl. rewrite Ht. rewrite filter_cons_False; [done|].
      simpl. by intros H.
  - destruct Ho as [Ht _]. destruct (timeoutId w); simpl; by rewrite Ht.
Qed.

(** X4 (invalidation): call [reset()] on a throttle that has not been reset
    before, while no fetch is in flight, be the cache empty or full and its
    window elapsed or not. The pending timer, if any, is cancelled; the next
    call invokes [fn] anew, and its promise is the one handed to every caller
    while it is in flight and for a full [wait_ms] after it settles. *)
Theorem reset_forces_refetch tr0 o tr1 tr2 :
  Forall reset_free tr0 →
  let w0 := (run wait_ms (init (T:=T) (E:=E)) tr0).1 in
  (∀ q, in_flight w0 q = false) →
  Forall passive tr1 → Forall passive tr2 → duration tr2 < wait_ms →
  let w := reset w0 in
  let p := fn_calls w0 in
  let r1 := run wait_ms w (Get :: tr1) in
  let r2 := run wait_ms (settle wait_ms p o r1.1) tr2 in
  timers w = [] ∧
  (r1.2 = replicate (S (gets tr1)) p ∧ fn_calls r1.1 = S (fn_calls w0)) ∧
  (r2.2 = replicate (gets tr2) p ∧ fn_calls r2.1 = S (fn_calls w0) ∧
   result_of r2.1 p = Some o).
Proof.
  intros Hf w0 Hn Hp1 Hp2 Hd w p r1 r2.
  pose proof (orderly_run wait_ms tr0 init Hf orderly_init) as Ho. fold w0 in Ho.
  destruct (reset_quiescent w0 Ho Hn) as [Hc Ht]. fold w in Hc, Ht.
  assert (Hfn : fn_calls w = fn_calls w0).
  { unfold fn_calls, w. by rewrite reset_fetches. }
  destruct (cycle_window wait_ms w o tr1 tr2 wait_ms Hc Ht Hp1 Hp2 Hd)
    as ((H1 & H2 & _) & _ & (H3 & H4 & _ & H5) & _); [lia|].
  rewrite Hfn in H1, H2, H3, H4, H5.
  fold p r1 in H1, H2, H3, H4, H5. fold r2 in H3, H4, H5.
  by split_and!.
Qed.

End ThrottlePaceFacts.

Module ThrottlePaceRuns.
Import Throttle Samples.

Lemma rate_limit_witness :
  let tr1 := [Get; Tick 3; Settle 0 (Fulfilled 7); Tick 49] in
  let tr2 := [Tick 1; Get; Tick 10; Settle 1 (Rejected network_error);
              Tick 38; Get] in
  let w1 := (run 50 (init (T:=nat) (E:=js_error)) tr1).1 in
  let w2 := (run 50 w1 tr2).1 in
  (Forall reset_free tr1 ∧ Forall reset_free tr2 ∧ duration tr2 < 50) ∧
  (fn_calls w1 = 1 ∧ fn_calls w2 = 2) ∧
  (fn_calls w2 - fn_calls w1 - 1) * 50 ≤ duration tr2 ∧
  fn_calls w2 ≤ S (fn_calls w1).
Proof.
  assert (Hf1 : Forall (reset_free (T:=nat) (E:=js_error))
                  [Get; Tick 3; Settle 0 (Fulfilled 7); Tick 49])
    by (repeat constructor).
  assert (Hf2 : Forall (reset_free (T:=nat) (E:=js_error))
                  [Tick 1; Get; Tick 10; Settle 1 (Rejected network_error);
                   Tick 38; Get])
    by (repeat constructor).
  assert (Hd : duration (T:=nat) (E:=js_error)
                 [Tick 1; Get; Tick 10; Settle 1 (Rejected network_error);
                  Tick 38; Get] < 50) by (simpl; lia).
  split; [by split_and!|]. split; [by split|].
  destruct (rate_limit (T:=nat) (E:=js_error) 50 _ _ Hf1 Hf2) as (_ & Hb & Hone).
  split; [exact Hb | exact (Hone Hd)].
Defined.

Lemma one_fetch_in_flight_witness :
  let tr := [Get; Tick 3; Settle 0 (Fulfilled 7); Tick 50; Get; Get] in
  let w := (run 50 (init (T:=nat) (E:=js_error)) tr).1 in
  Forall reset_free tr ∧ in_flight w 1 = true ∧
  cachedResult w = Some 1 ∧ ∀ q, in_flight w q = true → q = 1.
Proof.
  assert (Hf : Forall (reset_free (T:=nat) (E:=js_error))
                 [Get; Tick 3; Settle 0 (Fulfilled 7); Tick 50; Get; Get])
    by (repeat constructor).
  split; [exact Hf|]. split; [reflexivity|].
  exact (one_fetch_in_flight (T:=nat) (E:=js_error) 50 _ Hf 1 eq_refl).
Defined.

Lemma reset_forces_refetch_witness :
  let tr0 := [Get; Tick 3; Settle 0 (Fulfilled 7); Tick 10; Get] in
  let w0 := (run 50 (init (T:=nat) (E:=js_error)) tr0).1 in
  let r1 := run 50 (reset w0) [Get; Tick 5; Get] in
  let r2 := run 50 (settle 50 1 (Fulfilled 8) r1.1) [Tick 49; Get] in
  (Forall reset_free tr0 ∧ (∀ q, in_flight w0 q = false) ∧
   cachedResult w0 = Some 0 ∧ timers w0 = [(0, 53)]) ∧
  timers (reset w0) = [] ∧ r1.2 = [1; 1] ∧ r2.2 = [1] ∧ fn_calls r2.1 = 2.
Proof.
  assert (Hf : Forall (reset_free (T:=nat) (E:=js_error))
                 [Get; Tick 3; Settle 0 (Fulfilled 7); Tick 10; Get])
    by (repeat constructor).
  assert (Hn : ∀ q, in_flight
                 (run 50 (init (T:=nat) (E:=js_error))
                    [Get; Tick 3; Settle 0 (Fulfilled 7); Tick 10; Get]).1 q = false)
    by (by intros [|[|q]]).
  split; [split_and!; [exact Hf | exact Hn | reflexivity..]|].
  destruct (reset_forces_refetch (T:=nat) (E:=js_error) 50 _ (Fulfilled 8)
              [Tick 5; Get] [Tick 49; Get] Hf Hn)
    as (Ht & (H1 & _) & (H2 & H3 & _)).
  1,2: repeat constructor. 1: simpl; lia.
  split_and!; [exact Ht | exact H1 | exact H2 | exact H3].
Defined.

End ThrottlePaceRuns.


(** ** Reads after a write *)

Section ReadsAfterReset.
Import Throttle.
Context {T E : Type}.
Variable wait_ms : nat.
Implicit Types (w : world (T:=T) (E:=E)).
Implicit Types (tr : list (event (T:=T) (E:=E))).

(** Once the cache holds no promise of a call before the [n]th, no caller is
    handed one again. *)
Lemma handles_not_older tr : ∀ w n,
  n ≤ fn_calls w → (∀ q, cachedResult w = Some q → n ≤ q) →
  Forall (λ p, n ≤ p) (run wait_ms w tr).2.
Proof.
  induction tr as [|e tr IH]; intros w n Hn Hc; [done|].
  cbn [run].
  assert (Hstep : n ≤ fn_calls (step wait_ms w e).1 ∧
                  (∀ q, cachedResult (step wait_ms w e).1 = Some q → n ≤ q) ∧
                  Forall (λ p, n ≤ p) (step wait_ms w e).2).
  { destruct e as [| |q o|d]; cbn [step].
    - unfold doThrottle. destruct (cachedResult w) as [p|] eqn:Hp; simpl.
      + rewrite Hp. split_and!; [done..|]. repeat constructor. by apply Hc.
      + unfold fn_calls in *; simpl. rewrite length_app; simpl.
        split_and!; [lia| |repeat constructor; lia].
        intros q [= <-]. lia.
    - cbn [fst snd]. unfold fn_calls. rewrite reset_fetches. by split_and!.
    - cbn [fst snd]. unfold settle. destruct (in_flight w q); [|by split_and!].
      unfold fn_calls in *; simpl. rewrite length_insert. by split_and!.
    - cbn [fst snd]. unfold fn_calls, tick in *. rewrite run_timers_fetches. simpl.
      split_and!; [done| |done]. intros q.
      destruct (run_timers_cachedResult (length (timers w))
                  (set_clock (clock w + d) w)) as [-> | ->]; [apply Hc | done]. }
  destruct (step wait_ms w e) as [w1 o1]. simpl in Hstep.
  destruct Hstep as (Hn1 & Hc1 & Ho1).
  specialize (IH w1 n Hn1 Hc1).
  destruct (run wait_ms w1 tr) as [w2 o2]. simpl in *.
  by apply Forall_app.
Qed.

End ReadsAfterReset.

Section ThrottledClientReads.
Import HouseStatus ThrottledClient.
Variable Response : Type.
Variable axios_post : string → payload → outcome Response js_error.
Variable meanwhile : list (Throttle.event (T:=Status) (E:=js_error)).

Abbreviation setter_call := (ThrottledClient.setter_call Response axios_post meanwhile).

(** X12 (reads after a write): after a call of [setMode], [setCoolSetpoint]
    or [setHeatSetpoint] whose request has succeeded, whatever happens to the
    status throttle of the client, every promise it hands out is that of a
    fetch started after the answer to the write: no reader is served a status
    fetched, or being fetched, before. *)
Theorem reads_after_write (zone : Zone) url json m (c : client) ret tr :
  setter_call zone url json m →
  axios_post url json = Fulfilled ret →
  let c' := (m c).1 in
  Throttle.fn_calls (_status c')
    = Throttle.fn_calls (Throttle.run wait_ms (_status c) meanwhile).1 ∧
  Forall (λ p, Throttle.fn_calls (_status c') ≤ p)
    (Throttle.run wait_ms (_status c') tr).2.
Proof.
  intros Hcall Hok c'. subst c'.
  rewrite (setter_call_post _ _ _ _ _ _ _ c Hcall), post_unfold. cbv zeta.
  rewrite Hok. cbn [fst _status]. split.
  - unfold Throttle.fn_calls. by rewrite reset_fetches.
  - by apply handles_not_older.
Qed.

End ThrottledClientReads.

Module ReadRuns.
Import HouseStatus Samples.

Lemma reads_after_write_witness :
  let url := "https://www.mynexia.com/mobile/xxl_zones/10/zone_mode" in
  let m := ThrottledClient.setMode unit always_ok [] full_zone HEAT in
  let tr := [Throttle.Get; Throttle.Tick 10; Throttle.Get] in
  (ThrottledClient.setter_call unit always_ok [] full_zone url (PayloadValue HEAT) m ∧
   always_ok url (PayloadValue HEAT) = Fulfilled tt) ∧
  Throttle.fn_calls (ThrottledClient._status (m warm_client).1) = 1 ∧
  Forall (λ p, 1 ≤ p)
    (Throttle.run ThrottledClient.wait_ms
       (ThrottledClient._status (m warm_client).1) tr).2.
Proof.
  assert (Hcall : ThrottledClient.setter_call unit always_ok [] full_zone
            "https://www.mynexia.com/mobile/xxl_zones/10/zone_mode"
            (PayloadValue HEAT)
            (ThrottledClient.setMode unit always_ok [] full_zone HEAT))
    by (by constructor).
  split; [by split|].
  destruct (reads_after_write unit always_ok [] full_zone _ _ _ warm_client tt
              [Throttle.Get; Throttle.Tick 10; Throttle.Get] Hcall eq_refl)
    as [Hn Ho].
  split; [reflexivity | exact Ho].
Defined.

End ReadRuns.


(** ** Lookups in the status document *)

Section LookupFacts.
Import HouseStatus.

(** What [find] returns is the first entry that passes the test. *)
Lemma find_some_first {A : Type} (f : A → bool) (l : list A) (x : A) :
  find f l = Some x →
  ∃ before after,
    l = before ++ x :: after ∧ Forall (λ y, f y = false) before ∧ f x = true.
Proof.
  induction l as [|y l IH]; [done|]. simpl. destruct (f y) eqn:Hy.
  - intros [= ->]. by exists [], l.
  - intros Hf. destruct (IH Hf) as (before & after & -> & Hb & Hx).
    exists (y :: before), after. split_and!; [done| |done]. by constructor.
Qed.

Lemma thermostats_are_thermostats (raw : Status) (ts : list Thermostat) :
  thermostats raw = Return ts →
  Forall (λ t, st_type (thermostat_raw t) = THERMOSTAT_DEVICE_TYPE) ts.
Proof.
  unfold thermostats. destruct (find is_device_link (child raw)) as [c|]; [|done].
  simpl. intros [= <-]. apply Forall_forall. intros t Ht.
  apply list_elem_of_In, in_map_iff in Ht as (d & <- & Hd).
  apply filter_In in Hd as [_ Hd]. by apply String.eqb_eq.
Qed.

(** X5: [thermostat(id)] throws exactly when [thermostats()] does. Otherwise
    it returns the first of the thermostats whose [id] is the one asked for,
    which is a device of the thermostat type, and [undefined] exactly when
    no thermostat has that [id]: a device of another type is never returned,
    whatever its [id]. *)
Theorem thermostat_lookup (raw : Status) (id : Z) :
  match thermostat raw id with
  | Throw e => thermostats raw = Throw e
  | Return None =>
      ∃ ts, thermostats raw = Return ts ∧
            Forall (λ t, Thermostat_id t ≠ id) ts
  | Return (Some t) =>
      ∃ before after,
        thermostats raw = Return (before ++ t :: after) ∧
        Forall (λ t', Thermostat_id t' ≠ id) before ∧
        Thermostat_id t = id ∧
        st_type (thermostat_raw t) = THERMOSTAT_DEVICE_TYPE
  end.
Proof.
  unfold thermostat. destruct (thermostats raw) as [ts|e] eqn:Hts; [|done].
  destruct (find (λ t, (Thermostat_id t =? id)%Z) ts) as [t|] eqn:Hf.
  - apply find_some_first in Hf as (before & after & -> & Hb & Ht).
    exists before, after. split_and!; [done| | |].
    + eapply Forall_impl; [exact Hb|]. simpl. intros t' Ht'. by apply Z.eqb_neq.
    + by apply Z.eqb_eq.
    + apply thermostats_are_thermostats in Hts.
      apply Forall_app in Hts as [_ Hts]. by apply Forall_cons in Hts as [? _].
  - exists ts. split; [done|]. apply find_none_iff in Hf.
    eapply Forall_impl; [exact Hf|]. simpl. intros t' Ht'. by apply Z.eqb_neq.
Qed.

Lemma zone_raw_zones (t : Thermostat) :
  zone_raw <$> zones t = zones_raw (thermostat_raw t).
Proof.
  unfold zones. induction (zones_raw (thermostat_raw t)) as [|z l IH]; [done|].
  cbn. by f_equal.
Qed.

(** [zone(id)] of a thermostat: the first of its zones with that [id]. *)
Lemma zone_lookup (t : Thermostat) (id : Z) :
  match zone t id with
  | None => Forall (λ z, Zone_id z ≠ id) (zones t)
  | Some z =>
      ∃ before after,
        zones t = before ++ z :: after ∧
        Forall (λ z', Zone_id z' ≠ id) before ∧ Zone_id z = id
  end.
Proof.
  unfold zone. destruct (find (λ z, (Zone_id z =? id)%Z) (zones t)) as [z|] eqn:Hf.
  - apply find_some_first in Hf as (before & after & -> & Hb & Hz).
    exists before, after. split_and!; [done| |by apply Z.eqb_eq].
    eapply Forall_impl; [exact Hb|]. simpl. intros z' Hz'. by apply Z.eqb_neq.
  - apply find_none_iff in Hf.
    eapply Forall_impl; [exact Hf|]. simpl. intros z' Hz'. by apply Z.eqb_neq.
Qed.

(** The first entry of a name is the one the lookups return: entries of other
    names before it and any entry after it do not count. *)
Lemma thermostatFeature_first (z : Zone) before f after :
  sz_features (zone_raw z) = before ++ FeatThermostat f :: after →
  Forall (λ g, feature_name g ≠ "thermostat") before →
  _thermostatFeature z = Some (FeatThermostat f).
Proof.
  intros Hl Hb. unfold _thermostatFeature. rewrite Hl. clear Hl.
  induction before as [|g before IH]; [done|].
  apply Forall_cons in Hb as [Hg Hb]. simpl.
  apply String.eqb_neq in Hg. rewrite Hg. by apply IH.
Qed.

Lemma thermostatModeFeature_first (z : Zone) before f after :
  sz_features (zone_raw z) = before ++ FeatThermostatMode f :: after →
  Forall (λ g, feature_name g ≠ "thermostat_mode") before →
  _thermostatModeFeature z = Some (FeatThermostatMode f).
Proof.
  intros Hl Hb. unfold _thermostatModeFeature. rewrite Hl. clear Hl.
  induction before as [|g before IH]; [done|].
  apply Forall_cons in Hb as [Hg Hb]. simpl.
  apply String.eqb_neq in Hg. rewrite Hg. by apply IH.
Qed.

End LookupFacts.

Section MobileClientRequests.
Import Temperature HouseStatus MobileClient.
Variable Response : Type.
Variable axios_post : string → payload → outcome Response js_error.

Abbreviation setMode := (MobileClient.setMode Response axios_post).
Abbreviation setCoolSetpoint := (MobileClient.setCoolSetpoint Response axios_post).
Abbreviation setHeatSetpoint := (MobileClient.setHeatSetpoint Response axios_post).

(** X6: on a zone whose first feature named [thermostat] is [f], whatever
    the entries around it, [setCoolSetpoint] and [setHeatSetpoint] send one
    request each, to the endpoint of [f] for that setpoint, with the value
    converted to Fahrenheit as the body, and settle as the request does;
    nothing else is sent. *)
Theorem setpoint_request (zone : Zone) before f after temp (c : client) :
  sz_features (zone_raw zone) = before ++ FeatThermostat f :: after →
  Forall (λ g, feature_name g ≠ "thermostat") before →
  setCoolSetpoint zone temp c =
    (Client (requests c ++
               [Request (set_cool_setpoint f) (PayloadCool (celciusToFahrenheit temp))]),
     axios_post (set_cool_setpoint f) (PayloadCool (celciusToFahrenheit temp))) ∧
  setHeatSetpoint zone temp c =
    (Client (requests c ++
               [Request (set_heat_setpoint f) (PayloadHeat (celciusToFahrenheit temp))]),
     axios_post (set_heat_setpoint f) (PayloadHeat (celciusToFahrenheit temp))).
Proof.
  intros Hl Hb. pose proof (thermostatFeature_first zone before f after Hl Hb) as Hf.
  unfold MobileClient.setCoolSetpoint, MobileClient.setHeatSetpoint,
    set_cool_setpoint_href, set_heat_setpoint_href, async_bind.
  rewrite Hf. simpl. unfold MobileClient.post, async_bind, client_post, async_ret.
  split.
  - by destruct (axios_post (set_cool_setpoint f) _).
  - by destruct (axios_post (set_heat_setpoint f) _).
Qed.

(** X7: on a zone whose first feature named [thermostat_mode] is [f],
    [setMode] sends one request, to the mode endpoint of [f] with the mode as
    the body, and settles as the request does. *)
Theorem mode_request (zone : Zone) before f after value (c : client) :
  sz_features (zone_raw zone) = before ++ FeatThermostatMode f :: after →
  Forall (λ g, feature_name g ≠ "thermostat_mode") before →
  setMode zone value c =
    (Client (requests c ++ [Request (update_thermostat_mode f) (PayloadValue value)]),
     axios_post (update_thermostat_mode f) (PayloadValue value)).
Proof.
  intros Hl Hb.
  pose proof (thermostatModeFeature_first zone before f after Hl Hb) as Hf.
  unfold MobileClient.setMode, update_thermostat_mode_href, async_bind.
  rewrite Hf. simpl. unfold MobileClient.post, async_bind, client_post, async_ret.
  by destruct (axios_post (update_thermostat_mode f) _).
Qed.

End MobileClientRequests.

Module RequestRuns.
Import HouseStatus Samples MoreSamples.

Lemma setpoint_request_witness :
  let c := MobileClient.Client [] in
  (sz_features (zone_raw full_zone)
     = [FeatOther "connection"] ++ FeatThermostat thermostat_record :: [mode_feature] ∧
   Forall (λ g, feature_name g ≠ "thermostat") [FeatOther "connection"]) ∧
  MobileClient.setCoolSetpoint unit always_fails full_zone 25 c =
    (MobileClient.Client
       [Request "https://www.mynexia.com/mobile/xxl_zones/10/setpoints"
          (PayloadCool 77)],
     Rejected network_error).
Proof.
  assert (Hb : Forall (λ g, feature_name g ≠ "thermostat") [FeatOther "connection"])
    by (repeat constructor; discriminate).
  split; [by split|].
  exact (proj1 (setpoint_request unit always_fails full_zone
                  [FeatOther "connection"] thermostat_record [mode_feature]
                  25%float (MobileClient.Client []) eq_refl Hb)).
Defined.

Lemma mode_request_witness :
  let c := MobileClient.Client [] in
  (sz_features (zone_raw full_zone)
     = [FeatOther "connection"; thermostat_feature]
         ++ FeatThermostatMode mode_record :: [] ∧
   Forall (λ g, feature_name g ≠ "thermostat_mode")
     [FeatOther "connection"; thermostat_feature]) ∧
  MobileClient.setMode unit always_ok full_zone AUTO c =
    (MobileClient.Client
       [Request "https://www.mynexia.com/mobile/xxl_zones/10/zone_mode"
          (PayloadValue AUTO)],
     Fulfilled tt).
Proof.
  assert (Hb : Forall (λ g, feature_name g ≠ "thermostat_mode")
                 [FeatOther "connection"; thermostat_feature])
    by (repeat constructor; discriminate).
  split; [by split|].
  exact (mode_request unit always_ok full_zone
           [FeatOther "connection"; thermostat_feature] mode_record []
           AUTO (MobileClient.Client []) eq_refl Hb).
Defined.

End RequestRuns.


(** ** The platform *)

Section PlatformHandlerFacts.
Import HouseStatus PlatformHandlers.
Variable Response : Type.
Variable axios_post : string → payload → outcome Response js_error.
Variable number_to_string : Z → string.

Abbreviation thermostat := (PlatformHandlers.thermostat number_to_string).
Abbreviation zone := (PlatformHandlers.zone number_to_string).
Abbreviation thermostat_not_found :=
  (PlatformHandlers.thermostat_not_found number_to_string).
Abbreviation zone_not_found := (PlatformHandlers.zone_not_found number_to_string).
Abbreviation getCurrentHeatingCoolingState :=
  (PlatformHandlers.getCurrentHeatingCoolingState number_to_string).
Abbreviation setTargetTemperature :=
  (PlatformHandlers.setTargetTemperature Response axios_post number_to_string).

(** X8: the two mode tables are inverse to each other: every mode comes back
    from its number, a number that has a mode is the number of that mode, and
    the numbers without a mode are those outside 0..3. *)
Theorem mode_maps_inverse :
  (∀ m, MODE_INV_MAP (MODE_MAP m) = Some m) ∧
  (∀ n m, MODE_INV_MAP n = Some m → MODE_MAP m = n) ∧
  (∀ n, MODE_INV_MAP n = None ↔ (n < 0 ∨ 3 < n)%Z).
Proof.
  split_and!.
  - by intros [].
  - intros n m. destruct n as [|p|p]; simpl; [by intros [= <-]| |done].
    destruct p as [[p|p|]|[p|p|]|]; simpl; try done; by intros [= <-].
  - intros n. destruct n as [|p|p]; simpl; [split; [done|lia]| |split; [lia|done]].
    destruct p as [[p|p|]|[p|p|]|]; simpl; split; first [done | lia].
Qed.

(** X9: how [zone(tid, zid)] of the platform settles on a fetched status. It
    is fulfilled with a zone of that [id], of the first thermostat of that
    [id]. It is rejected with what [thermostats()] throws; with
    [thermostat not found], naming [tid] only, when no thermostat has the
    [id], whatever [zid]; and with [zone not found], naming both, when the
    thermostat is there and none of its zones has the [id]. A failed fetch
    passes through unchanged. *)
Theorem platform_zone_outcome (st : Status) (tid zid : Z) :
  match zone (Fulfilled st) tid zid with
  | Fulfilled z =>
      ∃ t, HouseStatus.thermostat st tid = Return (Some t) ∧
           Thermostat_id t = tid ∧ z ∈ zones t ∧ Zone_id z = zid
  | Rejected e =>
      thermostats st = Throw e ∨
      (e = thermostat_not_found tid ∧
       ∃ ts, thermostats st = Return ts ∧
             Forall (λ t, Thermostat_id t ≠ tid) ts) ∨
      (e = zone_not_found tid zid ∧
       ∃ t, HouseStatus.thermostat st tid = Return (Some t) ∧
            Forall (λ z, Zone_id z ≠ zid) (zones t))
  end ∧
  ∀ e, zone (Rejected e) tid zid = Rejected e.
Proof.
  split; [|done].
  unfold PlatformHandlers.zone, PlatformHandlers.thermostat.
  destruct (HouseStatus.thermostat st tid) as [[t|]|e] eqn:Hth;
    unfold HouseStatus.thermostat in Hth;
    destruct (thermostats st) as [ts|e'] eqn:Hts; try done.
  - injection Hth as Hf.
    apply find_some_first in Hf as (before & after & _ & _ & Hid).
    apply Z.eqb_eq in Hid.
    pose proof (zone_lookup t zid) as Hz.
    destruct (HouseStatus.zone t zid) as [z|].
    + destruct Hz as (zb & za & Hl & _ & Hzid).
      exists t. split_and!; [done..| |done].
      rewrite Hl. apply elem_of_app. right. by left.
    + right. right. split; [done|]. by exists t.
  - injection Hth as Hf. right. left. split; [done|]. exists ts. split; [done|].
    apply find_none_iff in Hf.
    eapply Forall_impl; [exact Hf|]. simpl. intros t' Ht'. by apply Z.eqb_neq.
  - left. by injection Hth as ->.
Qed.

(** X10: the current heating or cooling state read for a zone is 1 exactly
    when the status of its thermostat feature is [Heating], 2 exactly when
    it is [Cooling] and 0 in every other case, a missing status included;
    it is never 3. The read fails as the zone lookup does, or with the
    [TypeError] of [system_status] when the zone has no thermostat
    feature. *)
Theorem current_state_outcome (awaited : outcome Status js_error) (tid zid : Z) :
  match getCurrentHeatingCoolingState awaited tid zid with
  | Fulfilled v =>
      ∃ z s, zone awaited tid zid = Fulfilled z ∧ status z = Return s ∧
             (v = 1%Z ↔ s = Some Heating) ∧ (v = 2%Z ↔ s = Some Cooling) ∧
             (v = 0 ∨ v = 1 ∨ v = 2)%Z
  | Rejected e =>
      zone awaited tid zid = Rejected e ∨
      ∃ z, zone awaited tid zid = Fulfilled z ∧ _thermostatFeature z = None ∧
           e = TypeError_undefined "system_status"
  end.
Proof.
  unfold PlatformHandlers.getCurrentHeatingCoolingState.
  destruct (zone awaited tid zid) as [z|e]; [|by left].
  unfold status. destruct (_thermostatFeature z) as [[f| |]|] eqn:Hf.
  - exists z, (Some (system_status f)). unfold status. rewrite Hf.
    split_and!; [done..| | |]; destruct (system_status f); simpl;
      first [by split | lia].
  - exists z, None. unfold status. rewrite Hf. simpl.
    split_and!; [done..| | |]; first [by split | lia].
  - exists z, None. unfold status. rewrite Hf. simpl.
    split_and!; [done..| | |]; first [by split | lia].
  - right. by exists z.
Qed.

(** X11: a write of the target temperature, once the zone has been looked
    up. When the zone is found and its mode is [COOL] the write is one call
    of [setCoolSetpoint] on that zone, when [HEAT] one call of
    [setHeatSetpoint], and it settles as that call does; in [AUTO] and in
    [OFF] nothing is sent and the write succeeds. When the lookup fails
    nothing is sent and the write fails as the lookup did. *)
Theorem target_temperature_write (awaited : outcome Status js_error)
    (tid zid : Z) (val : float) (c : MobileClient.client) :
  let r := setTargetTemperature awaited tid zid val c in
  match zone awaited tid zid with
  | Rejected e => r = (c, Rejected e)
  | Fulfilled z =>
      match mode z with
      | COOL =>
          let call := MobileClient.setCoolSetpoint Response axios_post z val c in
          r = (call.1, void call.2)
      | HEAT =>
          let call := MobileClient.setHeatSetpoint Response axios_post z val c in
          r = (call.1, void call.2)
      | AUTO | OFF => r = (c, Fulfilled tt)
      end
  end.
Proof.
  intros r. subst r. unfold PlatformHandlers.setTargetTemperature.
  destruct (zone awaited tid zid) as [z|e]; [|done].
  unfold async_bind, async_ret.
  destruct (mode z); try done.
  - by destruct (MobileClient.setCoolSetpoint Response axios_post z val c)
      as [c' [ret|e]].
  - by destruct (MobileClient.setHeatSetpoint Response axios_post z val c)
      as [c' [ret|e]].
Qed.

End PlatformHandlerFacts.
